(** * Job Posting API: a shallow embedding of the request handlers

    The development follows the Express application of the repository:

    - [server.js]: the in-memory [employerSockets] object and the
      Socket.IO [register] / [disconnect] listeners;
    - [middleware/auth.js]: [authenticateJWT];
    - [routes/auth.js]: [POST /login];
    - [routes/jobs.js]: search, create, update and delete of job postings;
    - [routes/applications.js]: [POST /:jobId/apply];
    - [models/*.js]: the Mongoose schemas.

    MongoDB collections are finite maps from document identifier to
    document, [employerSockets] is a JavaScript object whose property order
    is kept, and a handler is a state transformer that either goes on,
    answers early ([return res.status(..).json(..)]) or throws into the
    enclosing [catch].  The functions of express-validator, bcrypt,
    jsonwebtoken, the MongoDB text index and the ObjectId generator are the
    fields of the [Platform] interface.  Identifiers are kept in their
    string form and numbers are integers.  The store answers every
    operation: what reaches a [catch] is a document refused by its schema
    on [save], a duplicate key, an identifier that cannot be cast, or a
    [bcrypt.compare] on something that is no string.

    The development has two parts.  The first takes requests in canonical
    form: identifiers spelled as the store spells them (twenty-four
    lower-case hexadecimal digits), body fields that are strings, and
    nothing in the query string.  The second, from [Scalar] on, takes the
    requests as they arrive, with Mongoose's cast of identifiers,
    express-validator's reading of every request location, JSON scalars in
    the body and the [createdAt]/[updatedAt] of a job; [apply_route_plain]
    and [login_route_plain] relate the two. *)

From stdpp Require Import gmap strings list fin_maps stringmap sorting.
From Stdlib Require Import ZArith Ascii.

Open Scope string_scope.

(** ** JavaScript values used by the handlers *)

Module Js.

(** Truthiness of a string: only the empty string is falsy. *)
Definition truthy (s : string) : bool := negb (String.eqb s "").

(** A possibly [undefined] string. *)
Definition truthy_opt (o : option string) : bool :=
  match o with Some s => truthy s | None => false end.

(** [x || d] for a possibly undefined string [x]. *)
Definition or_else {A} (isTruthy : A → bool) (x : option A) (d : A) : A :=
  match x with
  | Some v => if isTruthy v then v else d
  | None => d
  end.

(** express-validator's [toString]: [undefined] reads as the empty string. *)
Definition toStr (o : option string) : string := default "" o.

(** [s.startsWith(p)] *)
Definition startsWith (p s : string) : bool := String.prefix p s.

(** [s.split(sep)] for a one-character separator. *)
Fixpoint split_go (sep : ascii) (cur : string) (s : string) : list string :=
  match s with
  | EmptyString => [String.rev cur]
  | String c r =>
      if Ascii.eqb c sep then String.rev cur :: split_go sep "" r
      else split_go sep (String c cur) r
  end.
Definition split (sep : ascii) (s : string) : list string := split_go sep "" s.

Definition isSpace (c : ascii) : bool :=
  let n := N_of_ascii c in
  (n =? 32)%N || ((9 <=? n)%N && (n <=? 13)%N).

Fixpoint trimStart (s : string) : string :=
  match s with
  | String c r => if isSpace c then trimStart r else s
  | EmptyString => EmptyString
  end.

(** [s.trim()] on ASCII white space. *)
Definition trim (s : string) : string :=
  String.rev (trimStart (String.rev (trimStart s))).

(** *** Plain objects used as dictionaries

    An object is kept as the list of its own properties in creation
    order, one entry per key.  [Object.entries] enumerates array-index
    keys first, in ascending numeric order, then the other keys in
    creation order. *)

Abbreviation Obj := (list (string * string)).

(** [o[k]], [None] standing for [undefined] *)
Fixpoint get (k : string) (o : Obj) : option string :=
  match o with
  | [] => None
  | (k', v) :: r => if decide (k' = k) then Some v else get k r
  end.

(** [o[k] = v]: an existing property keeps its place. *)
Fixpoint set (k v : string) (o : Obj) : Obj :=
  match o with
  | [] => [(k, v)]
  | (k', v') :: r => if decide (k' = k) then (k, v) :: r else (k', v') :: set k v r
  end.

(** [delete o[k]] *)
Definition del (k : string) (o : Obj) : Obj := filter (λ kv, kv.1 ≠ k) o.

Definition digit (c : ascii) : option N :=
  let n := N_of_ascii c in
  if (48 <=? n)%N && (n <=? 57)%N then Some (n - 48)%N else None.

Fixpoint parseDigits (acc : N) (s : string) : option N :=
  match s with
  | EmptyString => Some acc
  | String c r => d ← digit c; parseDigits (10 * acc + d)%N r
  end.

(** The key is the canonical decimal form of an integer below 2^32 - 1. *)
Definition arrayIndex (k : string) : option N :=
  match k with
  | EmptyString => None
  | String c r =>
      if Ascii.eqb c "0" && negb (String.eqb r "") then None
      else n ← parseDigits 0 k; if (n <? 4294967295)%N then Some n else None
  end.

Definition indexed (o : Obj) : list (N * (string * string)) :=
  omap (λ kv, n ← arrayIndex kv.1; Some (n, kv)) o.

Definition named (o : Obj) : Obj :=
  filter (λ kv, arrayIndex kv.1 = None) o.

Definition byIndex (a b : N * (string * string)) : Prop := (a.1 ≤ b.1)%N.

#[global] Instance byIndex_dec a b : Decision (byIndex a b).
Proof. unfold byIndex. apply _. Defined.

(** [Object.entries(o)] *)
Definition entries (o : Obj) : list (string * string) :=
  (snd <$> merge_sort byIndex (indexed o)) ++ named o.

Definition keys (o : Obj) : list string := fst <$> o.

End Js.

(** ** Data model (models/*.js) *)

Abbreviation ObjectId := string.

(** models/Employer.js *)
Record Employer := {
  name : string;
  email : string;
  password : string   (* the bcrypt hash *)
}.

(** models/Job.js.  [salaryRange.min] and [salaryRange.max] are [required]
    by the schema; a document under construction may still lack them.  The
    [createdAt] and [updatedAt] of [timestamps: true] are kept beside the
    job, in [Timestamps]. *)
Record SalaryRange := {
  salaryMin : option Z;
  salaryMax : option Z
}.

Record Job := {
  title : string;
  description : string;
  location : string;
  salaryRange : SalaryRange;
  employerId : string
}.

(** models/Application.js *)
Record Application := {
  candidateName : string;
  candidateEmail : string;
  jobId : ObjectId;
  applicationDate : nat
}.

(** The payload of a verified token: [{ id, email }]. *)
Record User := {
  user_id : string;
  user_email : string
}.

(** ** The libraries the handlers call *)

Class Platform := {
  (** express-validator; none of the three tests accepts the empty string *)
  isMongoId : string → bool;
  isEmail : string → bool;
  isNumeric : string → bool;
  isMongoId_empty : isMongoId "" = false;
  isEmail_empty : isEmail "" = false;
  isNumeric_empty : isNumeric "" = false;
  (** [Number(s)] on a numeric string *)
  toNumber : string → Z;
  (** [{ $text: { $search: q } }] over the text index on title and location *)
  textSearch : string → Job → bool;
  (** bcrypt *)
  bcrypt_compare : string → string → bool;
  (** jsonwebtoken, with the configured secret *)
  jwt_sign : User → string;
  jwt_verify : string → option User;
  (** the identifier given to a new document: not one of the collection *)
  newObjectId : gset ObjectId → ObjectId;
  newObjectId_fresh : ∀ X, newObjectId X ∉ X;
  (** Mongoose: the message of the error that [save] throws for a job that
      misses a required path *)
  validationMessage : Job → string
}.

(** ** Responses *)

Record ValidationError := {
  param : string;
  msg : string
}.

(** [createdAt] and [updatedAt], which [timestamps: true] adds to a job. *)
Record Timestamps := {
  createdAt : nat;
  updatedAt : nat
}.

Inductive Json :=
| JErrors (errors : list ValidationError)
| JError (error : string)
| JMessage (message : string)
| JToken (token : string)
| JJob (_id : ObjectId) (job : Job)
| JJobs (jobs : list (ObjectId * Job))
| JApplication (_id : ObjectId) (application : Application)
(** a job document with its timestamps, and the fields of
    [.select('title description location salaryRange employerId createdAt')] *)
| JDocument (_id : ObjectId) (job : Job) (stamps : Timestamps)
| JSelection (_id : ObjectId) (job : Job) (created : nat).

Record Response := {
  status : nat;
  json : Json
}.

(** ** Server state *)

(** The event of [io.to(room).emit(event, payload)]; the room of an
    employer without a registered socket is [undefined]. *)
Record Emission := {
  room : option string;
  event : string;
  payload_jobId : ObjectId;
  payload_candidateName : string;
  payload_candidateEmail : string
}.

(** The Socket.IO server: what has been emitted so far. *)
Record SocketServer := {
  emitted : list Emission
}.

Record State := {
  employers : gmap ObjectId Employer;
  jobs : gmap ObjectId Job;
  applications : gmap ObjectId Application;
  employerSockets : Js.Obj;
  io : SocketServer
}.

Definition set_jobs (f : gmap ObjectId Job → gmap ObjectId Job) (st : State) : State :=
  {| employers := employers st; jobs := f (jobs st);
     applications := applications st;
     employerSockets := employerSockets st; io := io st |}.

Definition set_applications
    (f : gmap ObjectId Application → gmap ObjectId Application) (st : State) : State :=
  {| employers := employers st; jobs := jobs st;
     applications := f (applications st);
     employerSockets := employerSockets st; io := io st |}.

Definition set_employerSockets (f : Js.Obj → Js.Obj) (st : State) : State :=
  {| employers := employers st; jobs := jobs st;
     applications := applications st;
     employerSockets := f (employerSockets st); io := io st |}.

Definition set_io (f : SocketServer → SocketServer) (st : State) : State :=
  {| employers := employers st; jobs := jobs st;
     applications := applications st;
     employerSockets := employerSockets st; io := f (io st) |}.

(** ** Handler bodies

    A step of an [async (req, res) => { try { .. } catch { .. } }] body
    goes on with a value, answers the request and stops, or throws. *)

Inductive Step (A : Type) :=
| Next (a : A)
| Reply (r : Response)
| Raise (err : string).
Arguments Next {A} a.
Arguments Reply {A} r.
Arguments Raise {A} err.

Definition Handler (A : Type) := State → Step A * State.

Definition ret {A} (a : A) : Handler A := λ st, (Next a, st).

Definition bind {A B} (m : Handler A) (k : A → Handler B) : Handler B :=
  λ st, match m st with
        | (Next a, st') => k a st'
        | (Reply r, st') => (Reply r, st')
        | (Raise e, st') => (Raise e, st')
        end.

Definition reply {A} (code : nat) (body : Json) : Handler A :=
  λ st, (Reply {| status := code; json := body |}, st).

Definition throw {A} (err : string) : Handler A := λ st, (Raise err, st).

Definition gets {A} (f : State → A) : Handler A := λ st, (Next (f st), st).

Definition modify (f : State → State) : Handler unit := λ st, (Next tt, f st).

Declare Scope handler_scope.
Delimit Scope handler_scope with handler.
Notation "x <- m ;; k" := (bind m (λ x, k))
  (at level 100, m at next level, right associativity) : handler_scope.
Notation "m ;;; k" := (bind m (λ _, k))
  (at level 100, right associativity) : handler_scope.

(** [try { body } catch (err) { onError(err) }]; a body that runs to its
    end without answering leaves the request pending, which no handler
    here does. *)
Definition try_catch (body : Handler Response) (onError : string → Response)
    (st : State) : Response * State :=
  match body st with
  | (Next r, st') => (r, st')
  | (Reply r, st') => (r, st')
  | (Raise e, st') => (onError e, st')
  end.

Definition mkError (code : nat) (e : string) : Response :=
  {| status := code; json := JError e |}.

(** [check(field).<test>().withMessage(m)] *)
Definition check (field : string) (ok : bool) (m : string) : list ValidationError :=
  if ok then [] else [{| param := field; msg := m |}].

(** [check(field).optional().<test>()]: skipped when the field is undefined. *)
Definition check_optional (field : string) (value : option string)
    (test : string → bool) (m : string) : list ValidationError :=
  match value with
  | None => []
  | Some v => check field (test v) m
  end.

Definition notEmpty (s : string) : bool := negb (String.eqb s "").

(** The events addressed to some socket's room: an emission to the room
    [undefined] reaches no socket. *)
Definition dispatched (s : SocketServer) : list Emission :=
  filter (λ e, is_Some (room e)) (emitted s).

(** ** Requests *)

(** [POST /api/applications/:jobId/apply] *)
Record ApplyRequest := {
  params_jobId : string;
  body_candidateName : option string;
  body_candidateEmail : option string
}.

(** [POST /api/auth/login] *)
Record LoginRequest := {
  body_email : option string;
  body_password : option string
}.

(** The [salaryRange] object of a request body; its bounds arrive in
    textual form and are cast by the schema. *)
Record SalaryInput := {
  input_min : option string;
  input_max : option string
}.

(** The body of [POST /api/jobs] and [PUT /api/jobs/:id], with strings for
    its fields; [JobChanges] below has any JSON scalar. *)
Record JobBody := {
  body_title : option string;
  body_description : option string;
  body_location : option string;
  body_salaryRange : option SalaryInput
}.

(** The query string of [GET /api/jobs]. *)
Record JobQuery := {
  query_title : option string;
  query_location : option string;
  query_minSalary : option string;
  query_maxSalary : option string
}.

(** The query document handed to [Job.find]. *)
Record Filters := {
  filter_text : option string;         (* $text: { $search } *)
  filter_min : option Z;               (* 'salaryRange.min': { $gte } *)
  filter_max : option Z                (* 'salaryRange.max': { $lte } *)
}.

(** The argument of the [register] socket event. *)
Record RegisterData := {
  data_employerId : option string
}.

(** The query [q] without its [minSalary] (resp. [maxSalary]) parameter. *)
Definition without_min (q : JobQuery) : JobQuery :=
  {| query_title := query_title q; query_location := query_location q;
     query_minSalary := None; query_maxSalary := query_maxSalary q |}.

Definition without_max (q : JobQuery) : JobQuery :=
  {| query_title := query_title q; query_location := query_location q;
     query_minSalary := query_minSalary q; query_maxSalary := None |}.

(** The record that [new Application({ candidateName, candidateEmail, jobId })]
    makes of a request, and the notification sent for it; the handler below
    builds both inline. *)
Definition application_of (now : nat) (req : ApplyRequest) : Application :=
  {| candidateName := Js.toStr (body_candidateName req);
     candidateEmail := Js.toStr (body_candidateEmail req);
     jobId := params_jobId req;
     applicationDate := now |}.

Definition notification (r : option string) (req : ApplyRequest) : Emission :=
  {| room := r; event := "newApplication";
     payload_jobId := params_jobId req;
     payload_candidateName := Js.toStr (body_candidateName req);
     payload_candidateEmail := Js.toStr (body_candidateEmail req) |}.

Section Handlers.
Context {P : Platform}.

(** *** Mongoose models *)

(** [Job.findById(id)] for an identifier in the spelling of the store;
    [Job_findById_cast] below takes any string. *)
Definition Job_findById (id : ObjectId) : Handler (option Job) :=
  gets (λ st, jobs st !! id).

(** The [required] paths of JobSchema. *)
Definition JobSchema_valid (j : Job) : bool :=
  notEmpty (title j) && notEmpty (description j) && notEmpty (location j)
  && bool_decide (is_Some (salaryMin (salaryRange j)))
  && bool_decide (is_Some (salaryMax (salaryRange j)))
  && notEmpty (employerId j).

(** [job.save()]: schema validation, then the write. *)
Definition Job_save (id : ObjectId) (j : Job) : Handler unit :=
  if JobSchema_valid j then modify (set_jobs (insert id j))
  else throw (validationMessage j).

Definition Job_findByIdAndDelete (id : ObjectId) : Handler unit :=
  modify (set_jobs (delete id)).

(** A document matches a range condition only if it has the field. *)
Definition matches (f : Filters) (j : Job) : bool :=
  match filter_text f with Some q => textSearch q j | None => true end
  && match filter_min f with
     | Some n => match salaryMin (salaryRange j) with
                 | Some m => (n <=? m)%Z
                 | None => false
                 end
     | None => true
     end
  && match filter_max f with
     | Some n => match salaryMax (salaryRange j) with
                 | Some m => (m <=? n)%Z
                 | None => false
                 end
     | None => true
     end.

Definition Job_find (f : Filters) : Handler (list (ObjectId * Job)) :=
  gets (λ st, filter (λ d, matches f d.2 = true) (map_to_list (jobs st))).

Definition Employer_findOne (e : string) : Handler (option (ObjectId * Employer)) :=
  gets (λ st, snd <$> list_find (λ d, email d.2 = e) (map_to_list (employers st))).

(** The [required] paths of ApplicationSchema. *)
Definition ApplicationSchema_valid (a : Application) : bool :=
  notEmpty (candidateName a) && notEmpty (candidateEmail a) && notEmpty (jobId a).

(** [application.save()] of a new document: an unconditional insert
    under the document's own [_id]. *)
Definition Application_save (id : ObjectId) (a : Application) : Handler unit :=
  if ApplicationSchema_valid a then
    (taken <- gets (λ st, applications st !! id);;
     match taken with
     | Some _ => throw "E11000 duplicate key error"
     | None => modify (set_applications (insert id a))
     end)%handler
  else throw "Application validation failed".

(** *** Socket.IO *)

(** [io.to(room).emit(event, payload)]: the server hands the event to its
    adapter and returns; the call has no failure path of its own. *)
Definition io_to_emit (r : option string) (ev : string)
    (jid : ObjectId) (cname cemail : string) : Handler unit :=
  modify
    (set_io (λ s, {| emitted := emitted s ++
                       [{| room := r; event := ev; payload_jobId := jid;
                           payload_candidateName := cname;
                           payload_candidateEmail := cemail |}] |})).

(** server.js, [socket.on('register', ..)] for the socket [socket_id],
    on the [employerId] of an employer; [register_listener] below takes any
    string, the key [__proto__] included. *)
Definition on_register (socket_id : string) (data : option RegisterData)
    (st : State) : State :=
  match data ≫= data_employerId with
  | Some e =>
      if Js.truthy e then set_employerSockets (Js.set e socket_id) st else st
  | None => st
  end.

(** The [for .. of Object.entries(employerSockets)] loop with its [break]. *)
Fixpoint disconnect_loop (socket_id : string) (es : list (string * string))
    (o : Js.Obj) : Js.Obj :=
  match es with
  | [] => o
  | (employerId, socketId) :: rest =>
      if String.eqb socketId socket_id then Js.del employerId o
      else disconnect_loop socket_id rest o
  end.

(** server.js, [socket.on('disconnect', ..)] for the socket [socket_id]. *)
Definition on_disconnect (socket_id : string) (st : State) : State :=
  set_employerSockets (λ o, disconnect_loop socket_id (Js.entries o) o) st.

(** *** middleware/auth.js *)

Definition authenticateJWT (authorization : option string) : Response + User :=
  match authorization with
  | None => inl (mkError 401 "Unauthorized: No token provided.")
  | Some authHeader =>
      if negb (Js.truthy authHeader) || negb (Js.startsWith "Bearer " authHeader)
      then inl (mkError 401 "Unauthorized: No token provided.")
      else
        match Js.split " " authHeader !! 1%nat ≫= jwt_verify with
        | Some user => inr user
        | None => inl (mkError 403 "Forbidden: Invalid or expired token.")
        end
  end.

(** *** routes/applications.js *)

(** The validators on a request that has its fields in the body only;
    [apply_route_validation] below reads the query string too. *)
Definition apply_validation (req : ApplyRequest) : list ValidationError :=
  check "jobId" (isMongoId (params_jobId req)) "Invalid job ID"
  ++ check "candidateName" (notEmpty (Js.toStr (body_candidateName req)))
       "Candidate name is required"
  ++ check "candidateEmail" (isEmail (Js.toStr (body_candidateEmail req)))
       "A valid candidate email is required".

(** [router.post('/:jobId/apply', ..)]; [now] is the value of [Date.now]
    taken for the [applicationDate] default. *)
Definition submitApplication (now : nat) (req : ApplyRequest)
    (st : State) : Response * State :=
  match apply_validation req with
  | (_ :: _) as errs => ({| status := 400; json := JErrors errs |}, st)
  | [] =>
      try_catch
        (let candidateName := Js.toStr (body_candidateName req) in
         let candidateEmail := Js.toStr (body_candidateEmail req) in
         let jobId := params_jobId req in
         job <- Job_findById jobId;;
         match job with
         | None => reply 404 (JError "Job not found")
         | Some job =>
             _id <- gets (λ st, newObjectId (dom (applications st)));;
             let application :=
               {| candidateName := candidateName;
                  candidateEmail := candidateEmail;
                  jobId := jobId;
                  applicationDate := now |} in
             Application_save _id application;;;
             room <- gets (λ st, Js.get (employerId job) (employerSockets st));;
             io_to_emit room "newApplication" jobId candidateName candidateEmail;;;
             reply 201 (JApplication _id application)
         end)%handler
        (λ _, mkError 500 "Internal Server Error")
        st
  end.

(** *** routes/auth.js *)

(** Login with credentials that are strings of the body; [login_route]
    below takes any JSON scalar, in any location of the request. *)
Definition login_validation (req : LoginRequest) : list ValidationError :=
  check "email" (isEmail (Js.toStr (body_email req))) "A valid email is required"
  ++ check "password" (notEmpty (Js.toStr (body_password req)))
       "Password is required".

(** [router.post('/login', ..)] *)
Definition login (req : LoginRequest) (st : State) : Response * State :=
  match login_validation req with
  | (_ :: _) as errs => ({| status := 400; json := JErrors errs |}, st)
  | [] =>
      try_catch
        (let email' := Js.toStr (body_email req) in
         let password' := Js.toStr (body_password req) in
         employer <- Employer_findOne email';;
         match employer with
         | None => reply 401 (JError "Invalid email or password")
         | Some (_id, employer) =>
             if negb (bcrypt_compare password' (password employer))
             then reply 401 (JError "Invalid email or password")
             else
               reply 200 (JToken (jwt_sign {| user_id := _id;
                                              user_email := email employer |}))
         end)%handler
        (λ _, mkError 500 "Internal Server Error")
        st
  end.

(** *** routes/jobs.js *)

Definition search_validation (q : JobQuery) : list ValidationError :=
  check_optional "minSalary" (query_minSalary q) isNumeric "minSalary must be a number"
  ++ check_optional "maxSalary" (query_maxSalary q) isNumeric
       "maxSalary must be a number".

(** The [filters] object built from the query string. *)
Definition build_filters (q : JobQuery) : Filters :=
  {| filter_text :=
       if Js.truthy_opt (query_title q) || Js.truthy_opt (query_location q)
       then Some (Js.trim (Js.or_else Js.truthy (query_title q) ""
                           +:+ " " +:+
                           Js.or_else Js.truthy (query_location q) ""))
       else None;
     filter_min :=
       match query_minSalary q with
       | Some m => if Js.truthy m then Some (toNumber m) else None
       | None => None
       end;
     filter_max :=
       match query_maxSalary q with
       | Some m => if Js.truthy m then Some (toNumber m) else None
       | None => None
       end |}.

(** [router.get('/', ..)] *)
Definition searchJobs (q : JobQuery) (st : State) : Response * State :=
  match search_validation q with
  | (_ :: _) as errs => ({| status := 400; json := JErrors errs |}, st)
  | [] =>
      try_catch
        (found <- Job_find (build_filters q);;
         reply 200 (JJobs found))%handler
        (λ _, mkError 500 "Internal Server Error")
        st
  end.

(** [router.get('/:id', ..)] *)
Definition getJob (id : string) (st : State) : Response * State :=
  match check "id" (isMongoId id) "Invalid job ID format" with
  | (_ :: _) as errs => ({| status := 400; json := JErrors errs |}, st)
  | [] =>
      try_catch
        (job <- Job_findById id;;
         match job with
         | None => reply 404 (JError "Job not found")
         | Some job => reply 200 (JJob id job)
         end)%handler
        (λ _, mkError 500 "Internal Server Error")
        st
  end.

Definition salary_min (b : JobBody) : option string :=
  body_salaryRange b ≫= input_min.
Definition salary_max (b : JobBody) : option string :=
  body_salaryRange b ≫= input_max.

(** The schema's cast of a [salaryRange] object to numbers. *)
Definition castSalary (r : SalaryInput) : SalaryRange :=
  {| salaryMin := toNumber <$> input_min r;
     salaryMax := toNumber <$> input_max r |}.

Definition create_validation (b : JobBody) : list ValidationError :=
  check "title" (notEmpty (Js.toStr (body_title b))) "Title is required"
  ++ check "description" (notEmpty (Js.toStr (body_description b)))
       "Description is required"
  ++ check "location" (notEmpty (Js.toStr (body_location b))) "Location is required"
  ++ check "salaryRange.min" (isNumeric (Js.toStr (salary_min b)))
       "Minimum salary must be a number"
  ++ check "salaryRange.max" (isNumeric (Js.toStr (salary_max b)))
       "Maximum salary must be a number".

(** The handler of [router.post('/', ..)], for the [req.user] it finds. *)
Definition createJob_handler (user : option User) (b : JobBody)
    (st : State) : Response * State :=
  match create_validation b with
  | (_ :: _) as errs => ({| status := 400; json := JErrors errs |}, st)
  | [] =>
      try_catch
        (let employerId := user_id <$> user in
         if negb (Js.truthy_opt employerId)
         then reply 403 (JError "Unauthorized: Employer ID missing.")
         else
           _id <- gets (λ st, newObjectId (dom (jobs st)));;
           let job :=
             {| title := Js.toStr (body_title b);
                description := Js.toStr (body_description b);
                location := Js.toStr (body_location b);
                salaryRange :=
                  castSalary (default {| input_min := None; input_max := None |}
                                      (body_salaryRange b));
                employerId := Js.toStr employerId |} in
           Job_save _id job;;;
           reply 201 (JJob _id job))%handler
        (λ _, mkError 500 "Server error, could not create job.")
        st
  end.

(** [router.post('/', ..)] as mounted: [authenticateJWT] is commented out
    of the middleware list and nothing else assigns [req.user]. *)
Definition createJob (b : JobBody) (st : State) : Response * State :=
  createJob_handler None b st.

Definition update_validation (id : string) (b : JobBody) : list ValidationError :=
  check "id" (isMongoId id) "Invalid job ID"
  ++ check_optional "title" (body_title b) notEmpty "Title cannot be empty"
  ++ check_optional "description" (body_description b) notEmpty
       "Description cannot be empty"
  ++ check_optional "location" (body_location b) notEmpty "Location cannot be empty"
  ++ check_optional "salaryRange.min" (salary_min b) isNumeric
       "Minimum salary must be a number"
  ++ check_optional "salaryRange.max" (salary_max b) isNumeric
       "Maximum salary must be a number".

(** The assignments [job.f = f || job.f] of the update handler. *)
Definition merge (b : JobBody) (job : Job) : Job :=
  {| title := Js.or_else Js.truthy (body_title b) (title job);
     description := Js.or_else Js.truthy (body_description b) (description job);
     location := Js.or_else Js.truthy (body_location b) (location job);
     salaryRange :=
       Js.or_else (λ _, true) (castSalary <$> body_salaryRange b) (salaryRange job);
     employerId := employerId job |}.

(** The handler of [router.put('/:id', ..)] behind [authenticateJWT]. *)
Definition updateJob_handler (user : User) (id : string) (b : JobBody)
    (st : State) : Response * State :=
  match update_validation id b with
  | (_ :: _) as errs => ({| status := 400; json := JErrors errs |}, st)
  | [] =>
      try_catch
        (job <- Job_findById id;;
         match job with
         | None => reply 404 (JError "Job not found")
         | Some job =>
             if negb (String.eqb (employerId job) (user_id user))
             then reply 403
                    (JError "Forbidden: You are not authorized to modify this job posting.")
             else
               let job' := merge b job in
               Job_save id job';;;
               reply 200 (JJob id job')
         end)%handler
        (λ err, mkError 500 err)
        st
  end.

(** [router.put('/:id', authenticateJWT, [..], ..)] *)
Definition updateJob (authorization : option string) (id : string) (b : JobBody)
    (st : State) : Response * State :=
  match authenticateJWT authorization with
  | inl denied => (denied, st)
  | inr user => updateJob_handler user id b st
  end.

(** The handler of [router.delete('/:id', ..)] behind [authenticateJWT]. *)
Definition deleteJob_handler (user : User) (id : string)
    (st : State) : Response * State :=
  match check "id" (isMongoId id) "Invalid job ID" with
  | (_ :: _) as errs => ({| status := 400; json := JErrors errs |}, st)
  | [] =>
      try_catch
        (job <- Job_findById id;;
         match job with
         | None => reply 404 (JError "Job not found.")
         | Some job =>
             if negb (String.eqb (employerId job) (user_id user))
             then reply 403 (JError "Forbidden: You cannot delete this job.")
             else
               Job_findByIdAndDelete id;;;
               reply 200 (JMessage "Job deleted successfully.")
         end)%handler
        (λ _, mkError 500 "Server error, could not delete job.")
        st
  end.

(** [router.delete('/:id', authenticateJWT, [..], ..)] *)
Definition deleteJob (authorization : option string) (id : string)
    (st : State) : Response * State :=
  match authenticateJWT authorization with
  | inl denied => (denied, st)
  | inr user => deleteJob_handler user id st
  end.

End Handlers.

(** ** A reference platform

    Small executable stand-ins for the libraries, used to run the handlers
    on concrete requests. *)

Module Reference.

Definition isHex (c : ascii) : bool :=
  let n := N_of_ascii c in
  ((48 <=? n) && (n <=? 57) || (65 <=? n) && (n <=? 70)
   || (97 <=? n) && (n <=? 102))%N.

Fixpoint all_chars (p : ascii → bool) (s : string) : bool :=
  match s with
  | EmptyString => true
  | String c r => p c && all_chars p r
  end.

Definition isMongoId (s : string) : bool :=
  (String.length s =? 24)%nat && all_chars isHex s.

Definition isEmail (s : string) : bool :=
  match Js.split "@" s with
  | [user; domain] => notEmpty user && notEmpty domain
  | _ => false
  end.

Definition isDigit (c : ascii) : bool := bool_decide (is_Some (Js.digit c)).

Definition unsigned (s : string) : string :=
  match s with
  | String "+" r => r
  | String "-" r => r
  | _ => s
  end.

Definition isNumeric (s : string) : bool :=
  notEmpty (unsigned s) && all_chars isDigit (unsigned s).

Definition toNumber (s : string) : Z :=
  let n := Z.of_N (default 0%N (Js.parseDigits 0 (unsigned s))) in
  match s with
  | String "-" _ => (- n)%Z
  | _ => n
  end.

Definition occurs (w s : string) : bool :=
  bool_decide (is_Some (String.index 0 w s)).

Definition textSearch (q : string) (j : Job) : bool :=
  existsb (λ w, notEmpty w && (occurs w (title j) || occurs w (location j)))
          (Js.split " " q).

Definition bcrypt_compare (plain hash : string) : bool :=
  String.eqb hash ("$2b$" +:+ plain).

Definition jwt_sign (u : User) : string := user_id u +:+ "|" +:+ user_email u.

Definition jwt_verify (t : string) : option User :=
  match Js.split "|" t with
  | [i; e] => Some {| user_id := i; user_email := e |}
  | _ => None
  end.

Definition newObjectId (X : gset ObjectId) : ObjectId :=
  fresh_string_of_set "65f000000000000000000000" X.

(** The required paths that a job lacks, and the message made of them. *)
Definition missing (j : Job) : list string :=
  (if notEmpty (title j) then [] else ["title"])
  ++ (if notEmpty (description j) then [] else ["description"])
  ++ (if notEmpty (location j) then [] else ["location"])
  ++ (if bool_decide (is_Some (salaryMin (salaryRange j))) then []
      else ["salaryRange.min"])
  ++ (if bool_decide (is_Some (salaryMax (salaryRange j))) then []
      else ["salaryRange.max"])
  ++ (if notEmpty (employerId j) then [] else ["employerId"]).

Fixpoint join (sep : string) (l : list string) : string :=
  match l with
  | [] => ""
  | [s] => s
  | s :: r => s +:+ sep +:+ join sep r
  end.

Definition validationMessage (j : Job) : string :=
  "Job validation failed: "
  +:+ join ", " ((λ path, path +:+ ": Path `" +:+ path +:+ "` is required.")
                   <$> missing j).

Definition platform : Platform :=
  Build_Platform isMongoId isEmail isNumeric eq_refl eq_refl eq_refl
    toNumber textSearch bcrypt_compare jwt_sign jwt_verify
    newObjectId (λ X, fresh_string_of_set_fresh X _) validationMessage.

End Reference.


(** ** Sample data *)

Module Sample.

Definition acme : ObjectId := "65f0000000000000000000e1".
Definition globex : ObjectId := "65f0000000000000000000e2".
Definition engineer : ObjectId := "65f0000000000000000000a1".
Definition analyst : ObjectId := "65f0000000000000000000a2".
Definition unknown : ObjectId := "65f0000000000000000000ff".

Definition engineer_job : Job :=
  {| title := "Software Engineer";
     description := "Develop and maintain web applications.";
     location := "New York";
     salaryRange := {| salaryMin := Some 50000%Z; salaryMax := Some 90000%Z |};
     employerId := acme |}.

Definition analyst_job : Job :=
  {| title := "Data Analyst";
     description := "Build reports.";
     location := "Boston";
     salaryRange := {| salaryMin := Some 60000%Z; salaryMax := Some 70000%Z |};
     employerId := globex |}.

Definition acme_account : Employer :=
  {| name := "Acme Corp";
     email := "employer@example.com";
     password := "$2b$password123" |}.

(** Acme is connected on the socket [sock-1]; Globex is not connected. *)
Definition server : State :=
  {| employers := {[ acme := acme_account ]};
     jobs := <[ engineer := engineer_job ]> {[ analyst := analyst_job ]};
     applications := ∅;
     employerSockets := [(acme, "sock-1")];
     io := {| emitted := [] |} |}.

Definition apply_to (id : string) : ApplyRequest :=
  {| params_jobId := id;
     body_candidateName := Some "Jane Doe";
     body_candidateEmail := Some "jane@test.com" |}.

(** A submission that leaves out the candidate's name. *)
Definition apply_nameless (id : string) : ApplyRequest :=
  {| params_jobId := id;
     body_candidateName := None;
     body_candidateEmail := Some "jane@test.com" |}.

Definition acme_token : option string := Some "Bearer 65f0000000000000000000e1|employer@example.com".
Definition globex_token : option string := Some "Bearer 65f0000000000000000000e2|hr@globex.com".

Definition no_change : JobBody :=
  {| body_title := None; body_description := None; body_location := None;
     body_salaryRange := None |}.

Definition retitle (t : string) : JobBody :=
  {| body_title := Some t; body_description := None; body_location := None;
     body_salaryRange := None |}.

(** An update that carries only the lower bound of the salary range. *)
Definition raise_min : JobBody :=
  {| body_title := None; body_description := None; body_location := None;
     body_salaryRange := Some {| input_min := Some "70000"; input_max := None |} |}.

Definition new_posting : JobBody :=
  {| body_title := Some "QA Engineer";
     body_description := Some "Test web applications.";
     body_location := Some "Remote";
     body_salaryRange := Some {| input_min := Some "40000"; input_max := Some "65000" |} |}.

Definition min_salary (m : string) : JobQuery :=
  {| query_title := None; query_location := None;
     query_minSalary := Some m; query_maxSalary := None |}.

Definition max_salary (m : string) : JobQuery :=
  {| query_title := None; query_location := None;
     query_minSalary := None; query_maxSalary := Some m |}.

Definition credentials (e p : string) : LoginRequest :=
  {| body_email := Some e; body_password := Some p |}.

Definition claim (e : string) : option RegisterData :=
  Some {| data_employerId := Some e |}.

(** One client on [sock-1] claims the employers "10" and then "9"; Acme
    registers on [sock-2]. *)
Definition shared_socket : State :=
  on_register "sock-2" (claim acme)
    (on_register "sock-1" (claim "9")
       (on_register "sock-1" (claim "10")
          (set_employerSockets (λ _, []) server))).

End Sample.

(** ** Employer registration and the socket event loop *)

(** [s.includes(c)] for a character [c]. *)
Fixpoint includes (c : ascii) (s : string) : bool :=
  match s with
  | EmptyString => false
  | String a r => Ascii.eqb a c || includes c r
  end.

Definition set_employers
    (f : gmap ObjectId Employer → gmap ObjectId Employer) (st : State) : State :=
  {| employers := f (employers st); jobs := jobs st;
     applications := applications st;
     employerSockets := employerSockets st; io := io st |}.

(** The body of [POST /api/auth/register]. *)
Record RegisterRequest := {
  register_name : option string;
  register_email : option string;
  register_password : option string
}.

(** [bcrypt.hash(password, 10)]: the salt is drawn by the library; a hash
    is accepted by [bcrypt.compare] for the password it was made from. *)
Class Bcrypt {P : Platform} := {
  bcrypt_hash : string → string → string;
  bcrypt_hash_compare :
    ∀ salt plain, bcrypt_compare plain (bcrypt_hash salt plain) = true;
  bcrypt_hash_nonempty : ∀ salt plain, bcrypt_hash salt plain ≠ ""
}.

(** The events the Socket.IO server delivers to the listeners of server.js. *)
Inductive SocketEvent :=
| Register (socket_id : string) (data : option RegisterData)
| Disconnect (socket_id : string).

(** The email index of the employer collection is [unique]. *)
Definition unique_emails (st : State) : Prop :=
  ∀ id1 id2 e1 e2,
    employers st !! id1 = Some e1 → employers st !! id2 = Some e2 →
    email e1 = email e2 → id1 = id2.

(** Every stored application references a stored job. *)
Definition applications_reference_jobs (st : State) : Prop :=
  ∀ id a, applications st !! id = Some a → is_Some (jobs st !! jobId a).

Section Registration.
Context {P : Platform} {B : Bcrypt}.

(** Every stored job satisfies JobSchema. *)
Definition jobs_valid (st : State) : Prop :=
  ∀ id j, jobs st !! id = Some j → JobSchema_valid j = true.

(** The [required] paths of EmployerSchema. *)
Definition EmployerSchema_valid (e : Employer) : bool :=
  notEmpty (name e) && notEmpty (email e) && notEmpty (password e).

(** [employer.save()] of a new document; the unique index on [email]
    refuses a second document with the same address. *)
Definition Employer_save (id : ObjectId) (e : Employer) : Handler unit :=
  if EmployerSchema_valid e then
    (taken <- gets (λ st, employers st !! id);;
     same <- Employer_findOne (email e);;
     match taken, same with
     | None, None => modify (set_employers (insert id e))
     | _, _ => throw "E11000 duplicate key error"
     end)%handler
  else throw "Employer validation failed".

Definition register_validation (req : RegisterRequest) : list ValidationError :=
  check "name" (notEmpty (Js.toStr (register_name req))) "Name is required"
  ++ check "email" (isEmail (Js.toStr (register_email req))) "A valid email is required"
  ++ check "password" (6 <=? String.length (Js.toStr (register_password req)))%nat
       "Password must be at least 6 characters long".

(** [router.post('/register', ..)]; [salt] is the salt [bcrypt.hash] draws. *)
Definition registerEmployer (salt : string) (req : RegisterRequest)
    (st : State) : Response * State :=
  match register_validation req with
  | (_ :: _) as errs => ({| status := 400; json := JErrors errs |}, st)
  | [] =>
      try_catch
        (let name' := Js.toStr (register_name req) in
         let email' := Js.toStr (register_email req) in
         let password' := Js.toStr (register_password req) in
         existingEmployer <- Employer_findOne email';;
         match existingEmployer with
         | Some _ => reply 400 (JError "Employer with that email already exists")
         | None =>
             let hashedPassword := bcrypt_hash salt password' in
             _id <- gets (λ st, newObjectId (dom (employers st)));;
             Employer_save _id {| name := name'; email := email';
                                  password := hashedPassword |};;;
             reply 201 (JMessage "Employer registered successfully")
         end)%handler
        (λ _, mkError 500 "Internal Server Error")
        st
  end.

(** [io.on('connection', ..)]: each event runs its listener. *)
Definition on_event (ev : SocketEvent) (st : State) : State :=
  match ev with
  | Register socket_id data => on_register socket_id data st
  | Disconnect socket_id => on_disconnect socket_id st
  end.

Definition run_events (evs : list SocketEvent) (st : State) : State :=
  foldl (λ st ev, on_event ev st) st evs.

End Registration.

Module ReferenceBcrypt.

Definition bcrypt_hash (salt plain : string) : string := "$2b$" +:+ plain.

Definition bcrypt : @Bcrypt Reference.platform :=
  @Build_Bcrypt Reference.platform bcrypt_hash
    (λ salt plain, String.eqb_refl ("$2b$" +:+ plain))
    (λ salt plain (H : "$2b$" +:+ plain = ""),
       eq_ind ("$2b$" +:+ plain)
              (λ s, match s with EmptyString => False | String _ _ => True end)
              I "" H).

End ReferenceBcrypt.

Module Sample2.

Definition signup (n e p : string) : RegisterRequest :=
  {| register_name := Some n; register_email := Some e;
     register_password := Some p |}.

(** A server without registered sockets. *)
Definition offline : State := set_employerSockets (λ _, []) Sample.server.

(** An application left behind for the engineer posting. *)
Definition with_application : State :=
  set_applications
    (insert "65f0000000000000000000b1"
            {| candidateName := "Jane Doe"; candidateEmail := "jane@test.com";
               jobId := Sample.engineer; applicationDate := 3 |})
    Sample.server.

End Sample2.

(** ** Requests as they arrive

    The handlers above take a request in canonical form: its identifiers
    are spelled as the store spells them, its body fields are strings and
    its query string is empty.  The definitions below put the library layer
    back for the routes where it shows: the cast Mongoose applies to an
    identifier, express-validator's [check], which reads a field in every
    location of the request while the handler reads the body only, JSON
    scalars in the body, the [timestamps] of JobSchema, and the [__proto__]
    key of a plain object. *)

(** A scalar of a JSON body; numbers are taken to be integers. *)
Inductive Scalar :=
| SString (s : string)
| SNumber (n : Z)
| SBoolean (b : bool)
| SNull.

(** The string a defined value is validated as (express-validator's
    [toString]: [null] reads as the empty string), which is also the string
    a String path of a schema stores for a string, a number or a boolean. *)
Definition stringOf (v : Scalar) : string :=
  match v with
  | SString s => s
  | SNumber n => pretty n
  | SBoolean true => "true"
  | SBoolean false => "false"
  | SNull => ""
  end.

(** Truthiness: [""], [0], [false] and [null] are falsy. *)
Definition truthy_scalar (v : Scalar) : bool :=
  match v with
  | SString s => Js.truthy s
  | SNumber n => negb (n =? 0)%Z
  | SBoolean b => b
  | SNull => false
  end.

(** A field that a [check(..)] chain validates: its value in the body
    and the values it has in the other locations of the request (cookies,
    headers, route parameters, query string). *)
Record Field := {
  in_body : option Scalar;
  elsewhere : list string
}.

(** The defined instances of the field. *)
Definition instances (f : Field) : list string :=
  from_option (λ v, [stringOf v]) [] (in_body f) ++ elsewhere f.

(** What a chain without [optional()] tests: every location that has the
    field and, when none has it, the undefined value. *)
Definition validated (f : Field) : list string :=
  match instances f with
  | [] => [""]
  | vs => vs
  end.

(** [check(name).<test>().withMessage(m)] *)
Definition check_field (name : string) (f : Field) (test : string → bool)
    (m : string) : list ValidationError :=
  validated f ≫= λ v, check name (test v) m.

(** [check(name).optional().<test>().withMessage(m)] *)
Definition check_field_optional (name : string) (f : Field) (test : string → bool)
    (m : string) : list ValidationError :=
  instances f ≫= λ v, check name (test v) m.

(** [f || d] as the update handler assigns it: the body value when it is
    truthy, in the string that the schema makes of it. *)
Definition supplied (f : Field) : bool :=
  from_option truthy_scalar false (in_body f).

Definition assigned (f : Field) (d : string) : string :=
  match in_body f with
  | Some v => if truthy_scalar v then stringOf v else d
  | None => d
  end.

(** A string field that the request has in its body only. *)
Definition body_only (v : option string) : Field :=
  {| in_body := SString <$> v; elsewhere := [] |}.

(** What Mongoose throws before a document is validated. *)
Inductive MongooseError :=
| CastError (value : string)         (* the string spells no ObjectId *)
| ObjectExpected (value : Scalar).   (* a nested path was assigned a scalar *)

Class Mongoose := {
  (** the cast of a string to an ObjectId, in the spelling of the store;
      [None] when the cast throws *)
  castObjectId : string → option ObjectId;
  (** [err.message] *)
  message : MongooseError → string;
  (** whether a filter [{ path: undefined }] is read as [{}], which every
      document matches, or as [{ path: null }] *)
  undefinedMatchesAll : bool
}.

(** [POST /api/applications/:jobId/apply] with what its query string and
    headers have for the two body fields. *)
Record Submission := {
  submitted : ApplyRequest;
  candidateName_elsewhere : list string;
  candidateEmail_elsewhere : list string
}.

(** [POST /api/auth/login] *)
Record Credentials := {
  email_field : Field;
  password_field : Field
}.

(** The requests of the first part: everything is in the body, as strings. *)
Definition plain_submission (req : ApplyRequest) : Submission :=
  {| submitted := req; candidateName_elsewhere := []; candidateEmail_elsewhere := [] |}.

Definition plain_credentials (req : LoginRequest) : Credentials :=
  {| email_field := body_only (body_email req);
     password_field := body_only (body_password req) |}.

(** The [salaryRange] of a body: a scalar, or an object with its bounds. *)
Inductive RangeInput :=
| RangeScalar (v : Scalar)
| RangeObject (r : SalaryInput).

(** [PUT /api/jobs/:id] *)
Record JobChanges := {
  title_field : Field;
  description_field : Field;
  location_field : Field;
  salaryRange_body : option RangeInput;
  min_elsewhere : list string;
  max_elsewhere : list string
}.

(** [req.body.salaryRange.min] and [.max] *)
Definition range_min (b : JobChanges) : option string :=
  match salaryRange_body b with
  | Some (RangeObject r) => input_min r
  | _ => None
  end.

Definition range_max (b : JobChanges) : option string :=
  match salaryRange_body b with
  | Some (RangeObject r) => input_max r
  | _ => None
  end.

(** A truthy scalar assigned to the nested path [salaryRange] invalidates
    the document. *)
Definition invalidated (b : JobChanges) : option Scalar :=
  match salaryRange_body b with
  | Some (RangeScalar v) => if truthy_scalar v then Some v else None
  | _ => None
  end.

(** The job collection with the timestamps of its documents; the version
    key, which no route changes, is left out. *)
Record Database := {
  server : State;
  jobTimestamps : gmap ObjectId Timestamps
}.

Definition touch (now : nat) (t : Timestamps) : Timestamps :=
  {| createdAt := createdAt t; updatedAt := now |}.

Definition Job_document (db : Database) (_id : ObjectId) : option (Job * Timestamps) :=
  job ← jobs (server db) !! _id;
  stamps ← jobTimestamps db !! _id;
  Some (job, stamps).

(** [o[k] = v] for a string [v] on a plain object: the key [__proto__]
    is the accessor of [Object.prototype], which ignores a string and adds
    no property. *)
Definition set_property (k v : string) (o : Js.Obj) : Js.Obj :=
  if String.eqb k "__proto__" then o else Js.set k v o.

(** server.js, [socket.on('register', ..)], on any [employerId] string. *)
Definition register_listener (socket_id : string) (data : option RegisterData)
    (st : State) : State :=
  match data ≫= data_employerId with
  | Some e =>
      if Js.truthy e then set_employerSockets (set_property e socket_id) st else st
  | None => st
  end.

#[global] Instance SalaryRange_eq_dec : EqDecision SalaryRange.
Proof. solve_decision. Defined.

#[global] Instance Job_eq_dec : EqDecision Job.
Proof. solve_decision. Defined.

Section Arrivals.
Context {P : Platform} {M : Mongoose}.

(** [Job.findById(id)] on the parameter as it arrives. *)
Definition Job_findById_cast (id : string) : Handler (option (ObjectId * Job)) :=
  match castObjectId id with
  | None => throw (message (CastError id))
  | Some _id => gets (λ st, (λ job, (_id, job)) <$> jobs st !! _id)
  end.

Definition candidateName_field (s : Submission) : Field :=
  {| in_body := SString <$> body_candidateName (submitted s);
     elsewhere := candidateName_elsewhere s |}.

Definition candidateEmail_field (s : Submission) : Field :=
  {| in_body := SString <$> body_candidateEmail (submitted s);
     elsewhere := candidateEmail_elsewhere s |}.

Definition apply_route_validation (s : Submission) : list ValidationError :=
  check "jobId" (isMongoId (params_jobId (submitted s))) "Invalid job ID"
  ++ check_field "candidateName" (candidateName_field s) notEmpty
       "Candidate name is required"
  ++ check_field "candidateEmail" (candidateEmail_field s) isEmail
       "A valid candidate email is required".

(** [router.post('/:jobId/apply', ..)].  The schema casts the [jobId] of
    the new application as [findById] has cast it, and the notification
    carries [job._id]. *)
Definition apply_route (now : nat) (s : Submission)
    (st : State) : Response * State :=
  match apply_route_validation s with
  | (_ :: _) as errs => ({| status := 400; json := JErrors errs |}, st)
  | [] =>
      try_catch
        (let candidateName := Js.toStr (body_candidateName (submitted s)) in
         let candidateEmail := Js.toStr (body_candidateEmail (submitted s)) in
         let jobId := params_jobId (submitted s) in
         job <- Job_findById_cast jobId;;
         match job with
         | None => reply 404 (JError "Job not found")
         | Some (job_id, job) =>
             _id <- gets (λ st, newObjectId (dom (applications st)));;
             let application :=
               {| candidateName := candidateName;
                  candidateEmail := candidateEmail;
                  jobId := job_id;
                  applicationDate := now |} in
             Application_save _id application;;;
             room <- gets (λ st, Js.get (employerId job) (employerSockets st));;
             io_to_emit room "newApplication" job_id candidateName candidateEmail;;;
             reply 201 (JApplication _id application)
         end)%handler
        (λ _, mkError 500 "Internal Server Error")
        st
  end.

(** [Employer.findOne({ email })] for the body value: the query casts a
    number or a boolean to a string; [{ email: null }] finds no employer,
    since every employer has an email; [{ email: undefined }] finds none
    either, or the first employer of the collection. *)
Definition Employer_findOne_by (e : option Scalar)
    : Handler (option (ObjectId * Employer)) :=
  match e with
  | None =>
      if undefinedMatchesAll
      then gets (λ st, head (map_to_list (employers st)))
      else ret None
  | Some SNull => ret None
  | Some v => Employer_findOne (stringOf v)
  end.

(** [bcrypt.compare(data, hash)] rejects when [data] is not a string. *)
Definition bcrypt_compare_data (data : option Scalar) (hash : string) : Handler bool :=
  match data with
  | Some (SString plain) => ret (bcrypt_compare plain hash)
  | _ => throw "data and hash must be strings"
  end.

Definition login_route_validation (c : Credentials) : list ValidationError :=
  check_field "email" (email_field c) isEmail "A valid email is required"
  ++ check_field "password" (password_field c) notEmpty "Password is required".

(** [router.post('/login', ..)] *)
Definition login_route (c : Credentials) (st : State) : Response * State :=
  match login_route_validation c with
  | (_ :: _) as errs => ({| status := 400; json := JErrors errs |}, st)
  | [] =>
      try_catch
        (let email' := in_body (email_field c) in
         let password' := in_body (password_field c) in
         employer <- Employer_findOne_by email';;
         match employer with
         | None => reply 401 (JError "Invalid email or password")
         | Some (_id, employer) =>
             validPassword <- bcrypt_compare_data password' (password employer);;
             if negb validPassword
             then reply 401 (JError "Invalid email or password")
             else
               reply 200 (JToken (jwt_sign {| user_id := _id;
                                              user_email := email employer |}))
         end)%handler
        (λ _, mkError 500 "Internal Server Error")
        st
  end.

(** [router.get('/:id', ..)]; the [catch] takes the cast that throws. *)
Definition get_route (id : string) (db : Database) : Response * Database :=
  match check "id" (isMongoId id) "Invalid job ID format" with
  | (_ :: _) as errs => ({| status := 400; json := JErrors errs |}, db)
  | [] =>
      match castObjectId id with
      | None => (mkError 500 "Internal Server Error", db)
      | Some _id =>
          match Job_document db _id with
          | None => (mkError 404 "Job not found", db)
          | Some (job, stamps) =>
              ({| status := 200; json := JSelection _id job (createdAt stamps) |}, db)
          end
      end
  end.

(** [router.delete('/:id', authenticateJWT, [..], ..)] *)
Definition delete_route (authorization : option string) (id : string)
    (db : Database) : Response * Database :=
  match authenticateJWT authorization with
  | inl denied => (denied, db)
  | inr user =>
      match check "id" (isMongoId id) "Invalid job ID" with
      | (_ :: _) as errs => ({| status := 400; json := JErrors errs |}, db)
      | [] =>
          match castObjectId id with
          | None => (mkError 500 "Server error, could not delete job.", db)
          | Some _id =>
              match Job_document db _id with
              | None => (mkError 404 "Job not found.", db)
              | Some (job, _) =>
                  if negb (String.eqb (employerId job) (user_id user))
                  then (mkError 403 "Forbidden: You cannot delete this job.", db)
                  else
                    ({| status := 200; json := JMessage "Job deleted successfully." |},
                     {| server := set_jobs (delete _id) (server db);
                        jobTimestamps := delete _id (jobTimestamps db) |})
              end
          end
      end
  end.

Definition update_route_validation (id : string) (b : JobChanges)
    : list ValidationError :=
  check "id" (isMongoId id) "Invalid job ID"
  ++ check_field_optional "title" (title_field b) notEmpty "Title cannot be empty"
  ++ check_field_optional "description" (description_field b) notEmpty
       "Description cannot be empty"
  ++ check_field_optional "location" (location_field b) notEmpty
       "Location cannot be empty"
  ++ check_field_optional "salaryRange.min"
       {| in_body := SString <$> range_min b; elsewhere := min_elsewhere b |}
       isNumeric "Minimum salary must be a number"
  ++ check_field_optional "salaryRange.max"
       {| in_body := SString <$> range_max b; elsewhere := max_elsewhere b |}
       isNumeric "Maximum salary must be a number".

(** The four assignments [job.f = f || job.f]. *)
Definition assign (b : JobChanges) (job : Job) : Job :=
  {| title := assigned (title_field b) (title job);
     description := assigned (description_field b) (description job);
     location := assigned (location_field b) (location job);
     salaryRange :=
       match salaryRange_body b with
       | Some (RangeObject r) => castSalary r
       | _ => salaryRange job
       end;
     employerId := employerId job |}.

End Arrivals.

(** Whether [save] finds the document modified, and so has the timestamps
    plugin rewrite [updatedAt]: it does when the assignments have changed
    the document. *)
Class ChangeTracking {P : Platform} := {
  isModified : Job → JobChanges → bool;
  isModified_changed : ∀ job b, assign b job ≠ job → isModified job b = true
}.

Section Updates.
Context {P : Platform} {M : Mongoose} {C : ChangeTracking}.

(** [router.put('/:id', authenticateJWT, [..], ..)]; the [catch] answers
    with the message of what was thrown. *)
Definition update_route (now : nat) (authorization : option string) (id : string)
    (b : JobChanges) (db : Database) : Response * Database :=
  match authenticateJWT authorization with
  | inl denied => (denied, db)
  | inr user =>
      match update_route_validation id b with
      | (_ :: _) as errs => ({| status := 400; json := JErrors errs |}, db)
      | [] =>
          match castObjectId id with
          | None => (mkError 500 (message (CastError id)), db)
          | Some _id =>
              match Job_document db _id with
              | None => (mkError 404 "Job not found", db)
              | Some (job, stamps) =>
                  if negb (String.eqb (employerId job) (user_id user))
                  then (mkError 403
                          "Forbidden: You are not authorized to modify this job posting.",
                        db)
                  else
                    let job' := assign b job in
                    let stamps' :=
                      if isModified job b then touch now stamps else stamps in
                    match invalidated b with
                    | Some v => (mkError 500 (message (ObjectExpected v)), db)
                    | None =>
                        if JobSchema_valid job'
                        then ({| status := 200; json := JDocument _id job' stamps' |},
                              {| server := set_jobs (insert _id job') (server db);
                                 jobTimestamps := <[_id := stamps']> (jobTimestamps db) |})
                        else (mkError 500 (validationMessage job'), db)
                    end
              end
          end
      end
  end.

End Updates.

Module ReferenceMongoose.

Definition lower (c : ascii) : ascii :=
  let n := N_of_ascii c in
  if (65 <=? n)%N && (n <=? 90)%N then ascii_of_N (n + 32) else c.

Fixpoint map_chars (f : ascii → ascii) (s : string) : string :=
  match s with
  | EmptyString => EmptyString
  | String c r => String (f c) (map_chars f r)
  end.

(** Twenty-four hexadecimal digits, read in lower case. *)
Definition castObjectId (s : string) : option ObjectId :=
  if (String.length s =? 24)%nat && Reference.all_chars Reference.isHex s
  then Some (map_chars lower s) else None.

Definition quoted (s : string) : string :=
  String "034" (s +:+ String "034" "").

Definition message (err : MongooseError) : string :=
  match err with
  | CastError v =>
      "Cast to ObjectId failed for value " +:+ quoted v +:+ " (type string) at path "
      +:+ quoted "_id" +:+ " for model " +:+ quoted "Job"
  | ObjectExpected v =>
      "Job validation failed: salaryRange: Cast to Object failed for value "
      +:+ quoted (stringOf v) +:+ " at path " +:+ quoted "salaryRange"
  end.

Definition mongoose : Mongoose := Build_Mongoose castObjectId message true.

(** The document is modified when an assignment has changed it. *)
Definition isModified (job : Job) (b : JobChanges) : bool :=
  bool_decide (@assign Reference.platform b job ≠ job).

Definition changes : @ChangeTracking Reference.platform :=
  @Build_ChangeTracking Reference.platform isModified
    (λ job b H, bool_decide_eq_true_2 _ H).

End ReferenceMongoose.

(** The test of validator 13: hexadecimal digits after an optional [0x] or
    [0h], twenty-four characters in all. *)
Module Validator13.

Definition unprefixed (s : string) : string :=
  match s with
  | String "0" (String "x" r) => r
  | String "0" (String "X" r) => r
  | String "0" (String "h" r) => r
  | String "0" (String "H" r) => r
  | _ => s
  end.

Definition isMongoId (s : string) : bool :=
  (String.length s =? 24)%nat && notEmpty (unprefixed s)
  && Reference.all_chars Reference.isHex (unprefixed s).

Definition platform : Platform :=
  Build_Platform isMongoId Reference.isEmail Reference.isNumeric eq_refl eq_refl eq_refl
    Reference.toNumber Reference.textSearch Reference.bcrypt_compare
    Reference.jwt_sign Reference.jwt_verify
    Reference.newObjectId (λ X, fresh_string_of_set_fresh X _)
    Reference.validationMessage.

End Validator13.

Module Sample3.

(** A submission whose candidate name is in the query string only. *)
Definition name_in_query (id n : string) : Submission :=
  {| submitted := Sample.apply_nameless id;
     candidateName_elsewhere := [n]; candidateEmail_elsewhere := [] |}.

(** The sample server with the timestamps of its two jobs. *)
Definition database : Database :=
  {| server := Sample.server;
     jobTimestamps :=
       <[ Sample.engineer := {| createdAt := 1; updatedAt := 1 |} ]>
         {[ Sample.analyst := {| createdAt := 2; updatedAt := 2 |} ]} |}.

Definition no_changes : JobChanges :=
  {| title_field := body_only None; description_field := body_only None;
     location_field := body_only None; salaryRange_body := None;
     min_elsewhere := []; max_elsewhere := [] |}.

Definition with_title (v : Scalar) : JobChanges :=
  {| title_field := {| in_body := Some v; elsewhere := [] |};
     description_field := body_only None;
     location_field := body_only None; salaryRange_body := None;
     min_elsewhere := []; max_elsewhere := [] |}.

Definition sign_in (e : string) (p : Scalar) : Credentials :=
  {| email_field := body_only (Some e);
     password_field := {| in_body := Some p; elsewhere := [] |} |}.

(** The password is in the query string, not in the body. *)
Definition password_in_query (e p : string) : Credentials :=
  {| email_field := body_only (Some e);
     password_field := {| in_body := None; elsewhere := [p] |} |}.

(** The engineer posting, spelled in upper case and with a [0x] prefix. *)
Definition engineer_upper : string := "65F0000000000000000000A1".
Definition prefixed : string := "0x65f00000000000000000a1".

End Sample3.

(** * Properties *)

Section Validation.
Context {P : Platform}.

Lemma check_nil field ok m : check field ok m = [] ↔ ok = true.
Proof. unfold check. destruct ok; split; congruence. Qed.

Lemma check_optional_nil field v test m :
  check_optional field v test m = [] ↔ ∀ s, v = Some s → test s = true.
Proof.
  destruct v as [s|]; simpl.
  - rewrite check_nil. split; [intros ? ? [= <-]; done | eauto].
  - split; [intros _ ? [=] | done].
Qed.

Lemma notEmpty_true s : notEmpty s = true ↔ s ≠ "".
Proof.
  unfold notEmpty. rewrite negb_true_iff.
  destruct (String.eqb_spec s ""); split; congruence.
Qed.

Lemma truthy_true s : Js.truthy s = true ↔ s ≠ "".
Proof. apply notEmpty_true. Qed.

Lemma isEmail_nonempty s : isEmail s = true → s ≠ "".
Proof. intros Hs ->. rewrite isEmail_empty in Hs. done. Qed.

Lemma isMongoId_nonempty s : isMongoId s = true → s ≠ "".
Proof. intros Hs ->. rewrite isMongoId_empty in Hs. done. Qed.

Lemma isNumeric_nonempty s : isNumeric s = true → s ≠ "".
Proof. intros Hs ->. rewrite isNumeric_empty in Hs. done. Qed.

Lemma apply_validation_nil req :
  apply_validation req = [] ↔
    isMongoId (params_jobId req) = true
    ∧ notEmpty (Js.toStr (body_candidateName req)) = true
    ∧ isEmail (Js.toStr (body_candidateEmail req)) = true.
Proof.
  unfold apply_validation.
  rewrite !app_nil, !check_nil. tauto.
Qed.

End Validation.

(** ** The application submission pipeline *)

Section Applications.
Context {P : Platform}.

Lemma submitApplication_invalid now req st :
  apply_validation req ≠ [] →
  submitApplication now req st =
    ({| status := 400; json := JErrors (apply_validation req) |}, st).
Proof.
  intros Hv. unfold submitApplication.
  destruct (apply_validation req) eqn:E; [done | reflexivity].
Qed.

Lemma submitApplication_no_job now req st :
  apply_validation req = [] →
  jobs st !! params_jobId req = None →
  submitApplication now req st = (mkError 404 "Job not found", st).
Proof.
  intros Hv Hj. unfold submitApplication. rewrite Hv.
  unfold try_catch, bind, Job_findById, gets. rewrite Hj. reflexivity.
Qed.

(** A validated submission to an existing job: the insert, the emit and
    the answer. *)
Lemma submitApplication_run now req st job :
  apply_validation req = [] →
  jobs st !! params_jobId req = Some job →
  let _id := newObjectId (dom (applications st)) in
  let saved := set_applications (insert _id (application_of now req)) st in
  applications st !! _id = None ∧
  submitApplication now req st =
    ({| status := 201; json := JApplication _id (application_of now req) |},
     set_io (λ s, {| emitted := emitted s ++
                       [notification (Js.get (employerId job) (employerSockets st))
                                     req] |}) saved).
Proof.
  intros Hv Hj _id saved.
  assert (Hfresh : applications st !! _id = None).
  { apply not_elem_of_dom, newObjectId_fresh. }
  split; [done|].
  apply apply_validation_nil in Hv as (Hid & Hname & Hmail).
  unfold submitApplication.
  rewrite (proj2 (apply_validation_nil req)) by done.
  unfold try_catch, bind, Job_findById, gets. rewrite Hj.
  unfold Application_save, ApplicationSchema_valid.
  cbn [candidateName candidateEmail jobId].
  rewrite Hname.
  rewrite (proj2 (notEmpty_true _) (isEmail_nonempty _ Hmail)).
  rewrite (proj2 (notEmpty_true _) (isMongoId_nonempty _ Hid)).
  cbn [andb]. unfold bind, gets. fold _id. rewrite Hfresh.
  unfold io_to_emit, modify. reflexivity.
Qed.

(** C1.  A submission with a well-formed [jobId] of an existing job, a
    non-empty [candidateName] and a valid [candidateEmail] is answered 201
    with the record that has been inserted in the application collection
    under a new identifier; that record carries the [jobId] and the
    [candidateEmail] of the request unchanged. *)
Theorem submitApplication_created now req st job cname cemail :
  isMongoId (params_jobId req) = true →
  body_candidateName req = Some cname → cname ≠ "" →
  body_candidateEmail req = Some cemail → isEmail cemail = true →
  jobs st !! params_jobId req = Some job →
  ∃ _id application,
    (submitApplication now req st).1 =
      {| status := 201; json := JApplication _id application |}
    ∧ applications st !! _id = None
    ∧ applications (submitApplication now req st).2 !! _id = Some application
    ∧ jobId application = params_jobId req
    ∧ candidateEmail application = cemail
    ∧ candidateName application = cname
    ∧ applicationDate application = now.
Proof.
  intros Hid Hname Hne Hmail Hvalid Hjob.
  assert (Hv : apply_validation req = []).
  { apply apply_validation_nil. rewrite Hname, Hmail. simpl.
    by rewrite (proj2 (notEmpty_true _) Hne). }
  destruct (submitApplication_run now req st job Hv Hjob) as [Hfresh Hrun].
  rewrite Hrun. simpl.
  eexists _, _. split; [reflexivity|]. split; [done|].
  split; [apply lookup_insert_eq|].
  unfold application_of. simpl. by rewrite Hname, Hmail.
Qed.

(** C3.  A validated submission to an existing job is answered 201, and
    in handling it the server emits exactly one [newApplication] event
    with payload [{ jobId, candidate: { candidateName, candidateEmail } }];
    when a channel is registered for the job's employer the event is
    delivered on that channel; when none is registered the event is
    addressed to no channel, nothing is delivered, and the answer and the
    stored application are the same as with a registered channel. *)
Theorem submitApplication_notifies now req st job :
  apply_validation req = [] →
  jobs st !! params_jobId req = Some job →
  let result := submitApplication now req st in
  let channel := Js.get (employerId job) (employerSockets st) in
  status result.1 = 201
  ∧ emitted (io result.2) = (emitted (io st) ++ [notification channel req])%list
  ∧ (∀ ch, channel = Some ch →
       dispatched (io result.2) =
         (dispatched (io st) ++ [notification (Some ch) req])%list)
  ∧ (channel = None → dispatched (io result.2) = dispatched (io st))
  ∧ (∀ sockets,
       let other := submitApplication now req (set_employerSockets (λ _, sockets) st) in
       other.1 = result.1 ∧ applications other.2 = applications result.2).
Proof.
  intros Hv Hjob result channel.
  destruct (submitApplication_run now req st job Hv Hjob) as [_ Hrun].
  subst result. rewrite Hrun. simpl.
  split; [done|]. split; [done|]. unfold dispatched. simpl.
  fold channel. split; [|split].
  - intros ch ->. rewrite filter_app. f_equal.
  - intros ->. rewrite filter_app. simpl.
    rewrite filter_cons_False, filter_nil, app_nil_r; [done|].
    simpl. by intros [? ?].
  - intros sockets.
    destruct (submitApplication_run now req (set_employerSockets (λ _, sockets) st)
                job Hv Hjob) as [_ Hother].
    simpl. rewrite Hother. done.
Qed.

(** C6.  Two successive validated submissions with the same
    [candidateEmail] and [jobId] to an existing job are both answered 201,
    and afterwards the application collection holds two records under two
    different identifiers, both new, both with that [candidateEmail] and
    [jobId]. *)
Theorem submitApplication_twice now1 now2 req st job :
  apply_validation req = [] →
  jobs st !! params_jobId req = Some job →
  let first := submitApplication now1 req st in
  let second := submitApplication now2 req first.2 in
  status first.1 = 201 ∧ status second.1 = 201
  ∧ ∃ id1 id2 a1 a2,
      id1 ≠ id2
      ∧ applications st !! id1 = None ∧ applications st !! id2 = None
      ∧ applications second.2 !! id1 = Some a1
      ∧ applications second.2 !! id2 = Some a2
      ∧ json first.1 = JApplication id1 a1
      ∧ json second.1 = JApplication id2 a2
      ∧ candidateEmail a1 = Js.toStr (body_candidateEmail req)
      ∧ candidateEmail a2 = Js.toStr (body_candidateEmail req)
      ∧ jobId a1 = params_jobId req ∧ jobId a2 = params_jobId req
      ∧ size (applications second.2) = S (S (size (applications st))).
Proof.
  intros Hv Hjob first second.
  destruct (submitApplication_run now1 req st job Hv Hjob) as [Hfresh1 Hrun1].
  subst second first. rewrite Hrun1. simpl.
  match goal with |- context [submitApplication now2 req ?s] => set (st1 := s) end.
  assert (Hjob1 : jobs st1 !! params_jobId req = Some job) by done.
  destruct (submitApplication_run now2 req st1 job Hv Hjob1) as [Hfresh2 Hrun2].
  rewrite Hrun2. simpl.
  split; [done|]. split; [done|].
  set (id1 := newObjectId (dom (applications st))) in *.
  set (id2 := newObjectId (dom (<[id1:=application_of now1 req]> (applications st)))) in *.
  assert (Hfresh : <[id1:=application_of now1 req]> (applications st) !! id2 = None)
    by exact Hfresh2.
  assert (Hne : id1 ≠ id2).
  { intros Heq. rewrite <- Heq, lookup_insert_eq in Hfresh. done. }
  exists id1, id2, (application_of now1 req), (application_of now2 req).
  split; [done|]. split; [done|].
  split. { rewrite lookup_insert_ne in Hfresh by done. done. }
  split. { rewrite lookup_insert_ne by done. apply lookup_insert_eq. }
  split. { apply lookup_insert_eq. }
  do 6 (split; [done|]).
  rewrite !map_size_insert_None; [done|done|done].
Qed.

End Applications.

(** ** Job postings *)

Section Jobs.
Context {P : Platform}.

Lemma update_validation_nil id b :
  update_validation id b = [] ↔
    isMongoId id = true
    ∧ (∀ s, body_title b = Some s → notEmpty s = true)
    ∧ (∀ s, body_description b = Some s → notEmpty s = true)
    ∧ (∀ s, body_location b = Some s → notEmpty s = true)
    ∧ (∀ s, salary_min b = Some s → isNumeric s = true)
    ∧ (∀ s, salary_max b = Some s → isNumeric s = true).
Proof.
  unfold update_validation.
  rewrite !app_nil, check_nil, !check_optional_nil. tauto.
Qed.

Lemma updateJob_handler_invalid user id b st :
  update_validation id b ≠ [] →
  updateJob_handler user id b st =
    ({| status := 400; json := JErrors (update_validation id b) |}, st).
Proof.
  intros Hv. unfold updateJob_handler.
  destruct (update_validation id b) eqn:E; [done | reflexivity].
Qed.

Lemma updateJob_handler_run user id b st :
  update_validation id b = [] →
  updateJob_handler user id b st =
    match jobs st !! id with
    | None => (mkError 404 "Job not found", st)
    | Some job =>
        if negb (String.eqb (employerId job) (user_id user))
        then (mkError 403 "Forbidden: You are not authorized to modify this job posting.",
              st)
        else if JobSchema_valid (merge b job)
        then ({| status := 200; json := JJob id (merge b job) |},
              set_jobs (insert id (merge b job)) st)
        else (mkError 500 (validationMessage (merge b job)), st)
    end.
Proof.
  intros Hv. unfold updateJob_handler. rewrite Hv.
  unfold try_catch, bind, Job_findById, gets.
  destruct (jobs st !! id) as [job|]; [|reflexivity].
  destruct (negb (String.eqb (employerId job) (user_id user))); [reflexivity|].
  unfold Job_save. destruct (JobSchema_valid (merge b job)); reflexivity.
Qed.

Lemma deleteJob_handler_run user id st :
  isMongoId id = true →
  deleteJob_handler user id st =
    match jobs st !! id with
    | None => (mkError 404 "Job not found.", st)
    | Some job =>
        if negb (String.eqb (employerId job) (user_id user))
        then (mkError 403 "Forbidden: You cannot delete this job.", st)
        else ({| status := 200; json := JMessage "Job deleted successfully." |},
              set_jobs (delete id) st)
    end.
Proof.
  intros Hid. unfold deleteJob_handler. rewrite Hid. simpl.
  unfold try_catch, bind, Job_findById, gets.
  destruct (jobs st !! id) as [job|]; [|reflexivity].
  destruct (negb (String.eqb (employerId job) (user_id user))); reflexivity.
Qed.

Lemma or_else_supplied s d : s ≠ "" → Js.or_else Js.truthy (Some s) d = s.
Proof. intros Hs. unfold Js.or_else. by rewrite (proj2 (truthy_true s) Hs). Qed.

Lemma or_else_kept (x : option string) d :
  Js.truthy_opt x = false → Js.or_else Js.truthy x d = d.
Proof. destruct x as [s|]; simpl; [intros ->|]; done. Qed.

(** The merged document passes the schema when the stored one does and a
    supplied salary range carries both of its bounds. *)
Lemma merge_valid b job :
  JobSchema_valid job = true →
  (∀ r, body_salaryRange b = Some r → is_Some (input_min r) ∧ is_Some (input_max r)) →
  JobSchema_valid (merge b job) = true.
Proof.
  unfold JobSchema_valid, merge. cbn [title description location salaryRange employerId].
  rewrite !andb_true_iff, !notEmpty_true, !bool_decide_eq_true.
  intros (((((Ht & Hd) & Hl) & Hmin) & Hmax) & He) Hr.
  assert (Hkeep : ∀ x d, d ≠ "" → Js.or_else Js.truthy x d ≠ "").
  { intros [s|] d Hd'; simpl; [|done].
    destruct (Js.truthy s) eqn:E; [by apply truthy_true | done]. }
  repeat split; auto.
  - destruct (body_salaryRange b) as [r|]; simpl; [|done].
    destruct (Hr r eq_refl) as [[m ->] _]. simpl. eauto.
  - destruct (body_salaryRange b) as [r|]; simpl; [|done].
    destruct (Hr r eq_refl) as [_ [m ->]]. simpl. eauto.
Qed.


(** C8.  The route does not do what the claim and the route's own
    documentation say: no create-job request is answered 201.  A request
    with invalid input is answered 400; one with valid input is answered
    403 "Unauthorized: Employer ID missing." whatever token it carries,
    because [authenticateJWT] is commented out of the route while the
    handler still requires [req.user.id].  No job is stored either way. *)
Theorem createJob_rejected b st :
  (create_validation b ≠ [] →
     createJob b st = ({| status := 400; json := JErrors (create_validation b) |}, st))
  ∧ (create_validation b = [] →
       createJob b st = (mkError 403 "Unauthorized: Employer ID missing.", st)).
Proof.
  unfold createJob, createJob_handler. split; intros Hv.
  - destruct (create_validation b) eqn:E; [done | reflexivity].
  - rewrite Hv. reflexivity.
Qed.

(** The handler itself does create the job once an identity is attached
    to the request. *)
Lemma createJob_handler_with_identity user b st :
  create_validation b = [] →
  user_id user ≠ "" →
  ∃ _id job,
    createJob_handler (Some user) b st =
      ({| status := 201; json := JJob _id job |}, set_jobs (insert _id job) st)
    ∧ jobs st !! _id = None
    ∧ employerId job = user_id user
    ∧ Some (title job) = body_title b.
Proof.
  intros Hv Hu. unfold createJob_handler. rewrite Hv.
  unfold create_validation in Hv.
  rewrite !app_nil, !check_nil, !notEmpty_true in Hv.
  destruct Hv as (Ht & Hd & Hl & Hmin & Hmax).
  apply isNumeric_nonempty in Hmin, Hmax.
  cbn [fmap option_fmap option_map Js.truthy_opt].
  rewrite (proj2 (truthy_true _) Hu). cbn [negb].
  unfold try_catch, bind, gets, Job_save, JobSchema_valid.
  cbn [title description location salaryRange employerId Js.toStr default].
  rewrite !(proj2 (notEmpty_true _)) by done.
  unfold salary_min, salary_max in Hmin, Hmax.
  destruct (body_salaryRange b) as [[[lo|] [hi|]]|]; try done.
  cbn. eexists _, _. split; [reflexivity|].
  split; [apply not_elem_of_dom, newObjectId_fresh|].
  split; [done|]. destruct (body_title b); done.
Qed.

(** *** Search *)

Lemma searchJobs_run q st :
  search_validation q = [] →
  searchJobs q st =
    ({| status := 200;
        json := JJobs (filter (λ d, matches (build_filters q) d.2 = true)
                              (map_to_list (jobs st))) |}, st).
Proof. intros Hv. unfold searchJobs. by rewrite Hv. Qed.

Lemma search_validation_nil q :
  search_validation q = [] ↔
    (∀ m, query_minSalary q = Some m → isNumeric m = true)
    ∧ (∀ m, query_maxSalary q = Some m → isNumeric m = true).
Proof.
  unfold search_validation. rewrite app_nil, !check_optional_nil. tauto.
Qed.

Lemma search_validation_without_min q :
  search_validation q = [] → search_validation (without_min q) = [].
Proof.
  rewrite !search_validation_nil. intros [_ Hmax]. split; [done|]. exact Hmax.
Qed.

Lemma search_validation_without_max q :
  search_validation q = [] → search_validation (without_max q) = [].
Proof.
  rewrite !search_validation_nil. intros [Hmin _]. split; [|done]. exact Hmin.
Qed.

Lemma matches_min q m j :
  query_minSalary q = Some m → isNumeric m = true →
  matches (build_filters q) j = true ↔
    matches (build_filters (without_min q)) j = true
    ∧ ∃ lo, salaryMin (salaryRange j) = Some lo ∧ (toNumber m ≤ lo)%Z.
Proof.
  intros Hq Hnum. unfold matches, build_filters, without_min.
  cbn [filter_text filter_min filter_max query_title query_location
       query_minSalary query_maxSalary].
  rewrite Hq, (proj2 (truthy_true m) (isNumeric_nonempty m Hnum)).
  rewrite !andb_true_iff.
  destruct (salaryMin (salaryRange j)) as [lo|].
  - rewrite Z.leb_le. split.
    + intros [[? ?] ?]. eauto 10.
    + intros [[[? _] ?] (? & [= <-] & ?)]. done.
  - split; [intros [[_ ?] _]; done | intros [_ (? & ? & _)]; done].
Qed.

Lemma matches_max q m j :
  query_maxSalary q = Some m → isNumeric m = true →
  matches (build_filters q) j = true ↔
    matches (build_filters (without_max q)) j = true
    ∧ ∃ hi, salaryMax (salaryRange j) = Some hi ∧ (hi ≤ toNumber m)%Z.
Proof.
  intros Hq Hnum. unfold matches, build_filters, without_max.
  cbn [filter_text filter_min filter_max query_title query_location
       query_minSalary query_maxSalary].
  rewrite Hq, (proj2 (truthy_true m) (isNumeric_nonempty m Hnum)).
  rewrite !andb_true_iff.
  destruct (salaryMax (salaryRange j)) as [hi|].
  - rewrite Z.leb_le. split.
    + intros [[? ?] ?]. eauto 10.
    + intros [[? _] (? & [= <-] & ?)]. done.
  - split; [intros [_ ?]; done | intros [_ (? & ? & _)]; done].
Qed.

(** C5.  A search whose parameters pass validation is answered 200 with
    stored jobs only.  With a [minSalary] parameter the answer holds exactly
    the jobs that the same search without [minSalary] returns and whose
    stored [salaryRange.min] is at least the given number, so a job with a
    lower stored minimum is left out whatever its maximum; with a
    [maxSalary] parameter, exactly those whose stored [salaryRange.max] is
    at most the given number. *)
Theorem searchJobs_salary_filter q st :
  search_validation q = [] →
  ∃ found,
    searchJobs q st = ({| status := 200; json := JJobs found |}, st)
    ∧ (∀ id j, (id, j) ∈ found → jobs st !! id = Some j)
    ∧ (∀ m, query_minSalary q = Some m →
         ∃ others,
           searchJobs (without_min q) st =
             ({| status := 200; json := JJobs others |}, st)
           ∧ (∀ id j, (id, j) ∈ found ↔
                (id, j) ∈ others
                ∧ ∃ lo, salaryMin (salaryRange j) = Some lo ∧ (toNumber m ≤ lo)%Z)
           ∧ (∀ id j lo, salaryMin (salaryRange j) = Some lo →
                (lo < toNumber m)%Z → (id, j) ∉ found))
    ∧ (∀ m, query_maxSalary q = Some m →
         ∃ others,
           searchJobs (without_max q) st =
             ({| status := 200; json := JJobs others |}, st)
           ∧ (∀ id j, (id, j) ∈ found ↔
                (id, j) ∈ others
                ∧ ∃ hi, salaryMax (salaryRange j) = Some hi ∧ (hi ≤ toNumber m)%Z)).
Proof.
  intros Hv. eexists. split; [by apply searchJobs_run|].
  pose proof (proj1 (search_validation_nil q) Hv) as [Hmin Hmax].
  split; [|split].
  - intros id j [_ Hin]%list_elem_of_filter. by apply elem_of_map_to_list in Hin.
  - intros m Hq. eexists.
    split; [by apply searchJobs_run, search_validation_without_min|].
    assert (Hiff : ∀ id j,
      (id, j) ∈ filter (λ d, matches (build_filters q) d.2 = true) (map_to_list (jobs st)) ↔
      (id, j) ∈ filter (λ d, matches (build_filters (without_min q)) d.2 = true)
                       (map_to_list (jobs st))
      ∧ ∃ lo, salaryMin (salaryRange j) = Some lo ∧ (toNumber m ≤ lo)%Z).
    { intros id j. rewrite !list_elem_of_filter. cbn [snd].
      rewrite (matches_min q m j Hq (Hmin m Hq)). tauto. }
    split; [exact Hiff|].
    intros id j lo Hlo Hlt [_ (lo' & Hlo' & Hle)]%Hiff.
    rewrite Hlo in Hlo'. injection Hlo' as <-. lia.
  - intros m Hq. eexists.
    split; [by apply searchJobs_run, search_validation_without_max|].
    intros id j. rewrite !list_elem_of_filter. cbn [snd].
    rewrite (matches_max q m j Hq (Hmax m Hq)). tauto.
Qed.

End Jobs.

(** ** Login *)

Section Login.
Context {P : Platform}.

Lemma login_validation_nil req :
  login_validation req = [] ↔
    isEmail (Js.toStr (body_email req)) = true
    ∧ notEmpty (Js.toStr (body_password req)) = true.
Proof. unfold login_validation. rewrite app_nil, !check_nil. tauto. Qed.

Lemma Employer_findOne_Some e st id employer :
  (Employer_findOne e st).1 = Next (Some (id, employer)) →
  employers st !! id = Some employer ∧ email employer = e.
Proof.
  unfold Employer_findOne, gets. cbn [fst]. intros [= Hfind].
  destruct (list_find _ _) as [[i d]|] eqn:E; [|done].
  simpl in Hfind. injection Hfind as ->.
  apply list_find_Some in E as (Hin%list_elem_of_lookup_2 & Hmail & _).
  by apply elem_of_map_to_list in Hin.
Qed.

Lemma Employer_findOne_None e st :
  (Employer_findOne e st).1 = Next None ↔
  ∀ id employer, employers st !! id = Some employer → email employer ≠ e.
Proof.
  unfold Employer_findOne, gets. cbn [fst]. split.
  - intros [= Hfind] id employer Hin.
    destruct (list_find _ _) as [[i d]|] eqn:E; [done|].
    apply list_find_None in E. rewrite Forall_forall in E.
    apply (E (id, employer)). by apply elem_of_map_to_list.
  - intros Hnone. destruct (list_find _ _) as [[i [id employer]]|] eqn:E; [|done].
    apply list_find_Some in E as (Hin%list_elem_of_lookup_2 & Hmail & _).
    apply elem_of_map_to_list in Hin. by destruct (Hnone _ _ Hin).
Qed.

Lemma login_run req st :
  login_validation req = [] →
  login req st =
    (match (Employer_findOne (Js.toStr (body_email req)) st).1 with
     | Next (Some (_id, employer)) =>
         if bcrypt_compare (Js.toStr (body_password req)) (password employer)
         then {| status := 200;
                 json := JToken (jwt_sign {| user_id := _id;
                                             user_email := email employer |}) |}
         else mkError 401 "Invalid email or password"
     | _ => mkError 401 "Invalid email or password"
     end, st).
Proof.
  intros Hv. unfold login. rewrite Hv.
  unfold try_catch, bind, Employer_findOne, gets. cbn [fst].
  destruct (list_find _ _) as [[i [id employer]]|]; [|reflexivity].
  cbn [fmap option_fmap option_map snd].
  destruct (bcrypt_compare _ _); reflexivity.
Qed.

(** For credentials that arrive as strings in the body: when the email is
    that of a registered employer and the password does not match the
    stored hash, the answer is 401 "Invalid email or password" and nothing
    changes; a request for an email that no employer has gets the very same
    answer. *)
Theorem login_wrong_password req req' st id employer :
  login_validation req = [] →
  login_validation req' = [] →
  employers st !! id = Some employer →
  email employer = Js.toStr (body_email req) →
  (∀ id' e', employers st !! id' = Some e' →
             email e' = Js.toStr (body_email req) →
             bcrypt_compare (Js.toStr (body_password req)) (password e') = false) →
  (∀ id' e', employers st !! id' = Some e' → email e' ≠ Js.toStr (body_email req')) →
  login req st = (mkError 401 "Invalid email or password", st)
  ∧ login req' st = login req st.
Proof.
  intros Hv Hv' Hknown Hmail Hwrong Hunknown.
  rewrite !login_run by done.
  rewrite (proj2 (Employer_findOne_None _ _) Hunknown).
  destruct (Employer_findOne (Js.toStr (body_email req)) st).1
    as [[[id1 e1]|]| |] eqn:E; try done.
  apply Employer_findOne_Some in E as [Hin He].
  by rewrite (Hwrong _ _ Hin He).
Qed.

End Login.

(** ** The presence registry *)

Section Registry.
Context {P : Platform}.

Lemma indexed_elem n kv (o : Js.Obj) :
  (n, kv) ∈ Js.indexed o ↔ kv ∈ o ∧ Js.arrayIndex kv.1 = Some n.
Proof.
  unfold Js.indexed. rewrite list_elem_of_omap. split.
  - intros (kv' & Hin & Hsome).
    destruct (Js.arrayIndex kv'.1) as [n'|] eqn:E; [|done].
    simpl in Hsome. injection Hsome as <- <-. done.
  - intros [Hin Hidx]. exists kv. split; [done|]. by rewrite Hidx.
Qed.

(** [Object.entries] enumerates the properties of the object, all of
    them and nothing else. *)
Lemma entries_elem kv (o : Js.Obj) : kv ∈ Js.entries o ↔ kv ∈ o.
Proof.
  unfold Js.entries, Js.named.
  rewrite elem_of_app, list_elem_of_fmap, list_elem_of_filter. split.
  - intros [([n kv'] & -> & Hin)|[_ Hin]]; [|done].
    rewrite merge_sort_Permutation in Hin. by apply indexed_elem in Hin as [? _].
  - intros Hin. destruct (Js.arrayIndex kv.1) as [n|] eqn:E; [left|right; done].
    exists (n, kv). split; [done|].
    rewrite merge_sort_Permutation. by apply indexed_elem.
Qed.

Lemma disconnect_loop_none sid es o :
  (∀ kv, kv ∈ es → kv.2 ≠ sid) → disconnect_loop sid es o = o.
Proof.
  induction es as [|[k v] es IH]; intros Hall; [done|]. simpl.
  destruct (String.eqb_spec v sid) as [->|_].
  - destruct (Hall (k, sid)); [left | done].
  - apply IH. intros kv Hin. apply Hall. by right.
Qed.

Lemma disconnect_loop_first sid pre k post o :
  (∀ kv, kv ∈ pre → kv.2 ≠ sid) →
  disconnect_loop sid (pre ++ (k, sid) :: post) o = Js.del k o.
Proof.
  induction pre as [|[k' v'] pre IH]; intros Hall; simpl.
  - by rewrite String.eqb_refl.
  - destruct (String.eqb_spec v' sid) as [->|_].
    + destruct (Hall (k', sid)); [left | done].
    + apply IH. intros kv Hin. apply Hall. by right.
Qed.

(** The loop stops at the first match, so it deletes one key or none. *)
Lemma disconnect_loop_cases sid es o :
  (disconnect_loop sid es o = o ∧ ∀ kv, kv ∈ es → kv.2 ≠ sid)
  ∨ ∃ pre k post, es = (pre ++ (k, sid) :: post)%list
                  ∧ (∀ kv, kv ∈ pre → kv.2 ≠ sid)
                  ∧ disconnect_loop sid es o = Js.del k o.
Proof.
  induction es as [|[k v] es IH]; simpl.
  - left. split; [done|]. intros kv Hin. by apply elem_of_nil in Hin.
  - destruct (String.eqb_spec v sid) as [->|Hne].
    + right. exists [], k, es. split; [done|]. split; [|done].
      intros kv Hin. by apply elem_of_nil in Hin.
    + destruct IH as [[Heq Hall]|(pre & k' & post & -> & Hpre & Heq)].
      * left. split; [done|]. intros kv [->|Hin]%elem_of_cons; [done|auto].
      * right. exists ((k, v) :: pre), k', post. split; [done|]. split; [|done].
        intros kv [->|Hin]%elem_of_cons; [done|auto].
Qed.

Lemma get_del_eq k (o : Js.Obj) : Js.get k (Js.del k o) = None.
Proof.
  unfold Js.del. induction o as [|[k' v'] o IH]; [done|].
  rewrite filter_cons. simpl. destruct (decide (k' ≠ k)) as [Hne|Heq]; [|done].
  simpl. by rewrite decide_False.
Qed.

Lemma get_del_ne k k' (o : Js.Obj) : k' ≠ k → Js.get k' (Js.del k o) = Js.get k' o.
Proof.
  intros Hne. unfold Js.del. induction o as [|[k0 v0] o IH]; [done|].
  rewrite filter_cons. simpl. destruct (decide (k0 ≠ k)) as [Hne0|Heq].
  - simpl. by rewrite IH.
  - apply dec_stable in Heq as ->. rewrite decide_False by done. exact IH.
Qed.

Lemma del_absent k (o : Js.Obj) : k ∉ Js.keys o → Js.del k o = o.
Proof.
  unfold Js.del, Js.keys. induction o as [|[k' v'] o IH]; [done|].
  rewrite fmap_cons, not_elem_of_cons. simpl. intros [Hne Hnot].
  rewrite filter_cons_True by (simpl; congruence). by rewrite IH.
Qed.

Lemma length_del k v (o : Js.Obj) :
  NoDup (Js.keys o) → (k, v) ∈ o → S (length (Js.del k o)) = length o.
Proof.
  unfold Js.keys. induction o as [|[k' v'] o IH]; intros Hnd Hin.
  - by apply elem_of_nil in Hin.
  - rewrite fmap_cons in Hnd. apply NoDup_cons in Hnd as [Hnot Hnd].
    unfold Js.del. rewrite filter_cons. simpl in *.
    apply elem_of_cons in Hin as [[= <- <-]|Hin].
    + rewrite decide_False by (intros ?; done).
      fold (Js.del k o). by rewrite del_absent.
    + rewrite decide_True.
      * simpl. f_equal. by apply IH.
      * intros ->. apply Hnot. apply list_elem_of_fmap. by exists (k, v).
Qed.

Lemma get_elem k v (o : Js.Obj) : NoDup (Js.keys o) → (k, v) ∈ o → Js.get k o = Some v.
Proof.
  unfold Js.keys. induction o as [|[k' v'] o IH]; intros Hnd Hin.
  - by apply elem_of_nil in Hin.
  - rewrite fmap_cons in Hnd. apply NoDup_cons in Hnd as [Hnot Hnd]. simpl in *.
    apply elem_of_cons in Hin as [[= <- <-]|Hin].
    + by rewrite decide_True.
    + rewrite decide_False; [by apply IH|].
      intros ->. apply Hnot. apply list_elem_of_fmap. by exists (k, v).
Qed.

(** The registry keeps one entry per employer. *)
Lemma keys_set k v (o : Js.Obj) : NoDup (Js.keys o) → NoDup (Js.keys (Js.set k v o)).
Proof.
  unfold Js.keys. intros Hnd.
  assert (Hin : ∀ x, x ∈ (Js.set k v o).*1 → x = k ∨ x ∈ o.*1).
  { induction o as [|[k' v'] o IH]; simpl; intros x.
    - rewrite list_elem_of_singleton. auto.
    - destruct (decide (k' = k)) as [->|Hne]; simpl.
      + rewrite !elem_of_cons. tauto.
      + rewrite !elem_of_cons. intros [->|Hx]; [auto|].
        apply NoDup_cons in Hnd as [_ Hnd]. destruct (IH Hnd x Hx); auto. }
  clear Hin. induction o as [|[k' v'] o IH]; simpl.
  - apply NoDup_singleton.
  - apply NoDup_cons in Hnd as [Hnot Hnd].
    destruct (decide (k' = k)) as [->|Hne]; simpl.
    + by apply NoDup_cons.
    + apply NoDup_cons. split; [|by apply IH].
      intros Hin. apply Hnot. clear IH Hnot Hnd.
      induction o as [|[k0 v0] o IH]; simpl in *.
      * apply list_elem_of_singleton in Hin. congruence.
      * destruct (decide (k0 = k)) as [->|Hne0]; simpl in *.
        -- apply elem_of_cons in Hin as [->|Hin]; [done|]. by right.
        -- apply elem_of_cons in Hin as [->|Hin]; [by left|]. right. by apply IH.
Qed.

Lemma keys_del k (o : Js.Obj) : NoDup (Js.keys o) → NoDup (Js.keys (Js.del k o)).
Proof.
  unfold Js.keys, Js.del. intros Hnd.
  eapply sublist_NoDup; [exact Hnd|].
  apply fmap_sublist, sublist_filter.
Qed.

Lemma on_register_keys sid data st :
  NoDup (Js.keys (employerSockets st)) →
  NoDup (Js.keys (employerSockets (on_register sid data st))).
Proof.
  intros Hnd. unfold on_register.
  destruct (data ≫= data_employerId) as [e|]; [|done].
  destruct (Js.truthy e); [|done]. by apply keys_set.
Qed.

Lemma on_disconnect_keys sid st :
  NoDup (Js.keys (employerSockets st)) →
  NoDup (Js.keys (employerSockets (on_disconnect sid st))).
Proof.
  intros Hnd. unfold on_disconnect. cbn [employerSockets set_employerSockets].
  destruct (disconnect_loop_cases sid (Js.entries (employerSockets st))
              (employerSockets st)) as [[-> _]|(pre & k & post & _ & _ & ->)];
    [done | by apply keys_del].
Qed.

Lemma on_register_get sid e st :
  e ≠ "" →
  Js.get e (employerSockets (on_register sid (Some {| data_employerId := Some e |}) st))
    = Some sid.
Proof.
  intros He. unfold on_register. cbn [mbind option_bind data_employerId].
  rewrite (proj2 (truthy_true e) He). cbn [employerSockets set_employerSockets].
  induction (employerSockets st) as [|[k v] o IH]; simpl.
  - by rewrite decide_True.
  - destruct (decide (k = e)) as [->|Hne]; simpl.
    + by rewrite decide_True.
    + by rewrite decide_False.
Qed.

(** C10.  A disconnect of the socket [sid] removes at most one entry of
    the registry.  When no employer is registered on [sid] the registry is
    unchanged.  Otherwise the entry removed is the first one, in the order
    of [Object.entries], whose value is [sid]: that employer is no longer
    registered, every other employer keeps its entry, those registered on
    [sid] included, and the registry is one entry shorter. *)
Theorem on_disconnect_first_match sid st :
  NoDup (Js.keys (employerSockets st)) →
  let registry := employerSockets st in
  let registry' := employerSockets (on_disconnect sid st) in
  (length registry ≤ S (length registry'))%nat
  ∧ ((∀ k v, (k, v) ∈ registry → v ≠ sid) → on_disconnect sid st = st)
  ∧ (∀ pre k post,
       Js.entries registry = (pre ++ (k, sid) :: post)%list →
       (∀ kv, kv ∈ pre → kv.2 ≠ sid) →
       Js.get k registry = Some sid
       ∧ Js.get k registry' = None
       ∧ (∀ k', k' ≠ k → Js.get k' registry' = Js.get k' registry)
       ∧ (∀ k', k' ≠ k → Js.get k' registry = Some sid →
                Js.get k' registry' = Some sid)
       ∧ S (length registry') = length registry).
Proof.
  intros Hnd registry registry'. subst registry registry'.
  unfold on_disconnect. cbn [employerSockets set_employerSockets].
  split; [|split].
  - destruct (disconnect_loop_cases sid (Js.entries (employerSockets st))
                (employerSockets st)) as [[-> _]|(pre & k & post & He & _ & ->)].
    + lia.
    + rewrite (length_del k sid); [done|done|].
      apply entries_elem. rewrite He. apply elem_of_app. right. by left.
  - intros Hnone. unfold set_employerSockets. rewrite disconnect_loop_none.
    + by destruct st.
    + intros [k v] Hin. exact (Hnone k v (proj1 (entries_elem _ _) Hin)).
  - intros pre k post Hentries Hpre.
    rewrite Hentries, disconnect_loop_first by done.
    assert (Hin : (k, sid) ∈ employerSockets st).
    { apply entries_elem. rewrite Hentries. apply elem_of_app. right. by left. }
    split; [by apply get_elem|].
    split; [apply get_del_eq|].
    split; [intros k' Hne; by apply get_del_ne|].
    split; [intros k' Hne Hk'; by rewrite get_del_ne|].
    by apply (length_del k sid).
Qed.

End Registry.

(** ** The handlers at work on the sample data *)

Section Runs.
#[local] Existing Instance Reference.platform.

Lemma submitApplication_created_witness :
  ∃ _id application,
    (submitApplication 7 (Sample.apply_to Sample.engineer) Sample.server).1 =
      {| status := 201; json := JApplication _id application |}
    ∧ applications Sample.server !! _id = None
    ∧ applications
        (submitApplication 7 (Sample.apply_to Sample.engineer) Sample.server).2 !! _id
      = Some application
    ∧ jobId application = Sample.engineer
    ∧ candidateEmail application = "jane@test.com"
    ∧ candidateName application = "Jane Doe"
    ∧ applicationDate application = 7.
Proof.
  apply (submitApplication_created 7 (Sample.apply_to Sample.engineer) Sample.server
           Sample.engineer_job "Jane Doe" "jane@test.com");
    try (vm_compute; reflexivity).
  discriminate.
Defined.

Lemma submitApplication_notifies_witness :
  let req := Sample.apply_to Sample.engineer in
  Js.get Sample.acme (employerSockets Sample.server) = Some "sock-1"
  ∧ status (submitApplication 7 req Sample.server).1 = 201
  ∧ emitted (io (submitApplication 7 req Sample.server).2)
    = [notification (Some "sock-1") req]
  ∧ dispatched (io (submitApplication 7 req Sample.server).2)
    = [notification (Some "sock-1") req]
  ∧ Js.get Sample.globex (employerSockets Sample.server) = None
  ∧ status (submitApplication 7 (Sample.apply_to Sample.analyst) Sample.server).1 = 201
  ∧ emitted (io (submitApplication 7 (Sample.apply_to Sample.analyst) Sample.server).2)
    = [notification None (Sample.apply_to Sample.analyst)]
  ∧ dispatched (io (submitApplication 7 (Sample.apply_to Sample.analyst) Sample.server).2)
    = [].
Proof.
  intros req.
  destruct (submitApplication_notifies 7 req Sample.server Sample.engineer_job)
    as (H201 & Hall & Hsent & _);
    [vm_compute; reflexivity .. |].
  destruct (submitApplication_notifies 7 (Sample.apply_to Sample.analyst) Sample.server
              Sample.analyst_job) as (H201' & Hall' & _ & Hnone & _);
    [vm_compute; reflexivity .. |].
  split; [reflexivity|]. split; [exact H201|]. split; [exact Hall|].
  split; [exact (Hsent "sock-1" eq_refl)|].
  split; [reflexivity|]. split; [exact H201'|]. split; [exact Hall'|].
  exact (Hnone eq_refl).
Defined.

Lemma submitApplication_twice_witness :
  let req := Sample.apply_to Sample.engineer in
  let first := submitApplication 7 req Sample.server in
  let second := submitApplication 8 req first.2 in
  status first.1 = 201 ∧ status second.1 = 201
  ∧ size (applications second.2) = 2.
Proof.
  intros req first second.
  destruct (submitApplication_twice 7 8 req Sample.server Sample.engineer_job)
    as (H1 & H2 & ? & ? & ? & ? & ? & ? & ? & ? & ? & ? & ? & ? & ? & ? & ? & Hsize);
    [vm_compute; reflexivity .. |].
  split; [exact H1|]. split; [exact H2|]. exact Hsize.
Defined.



Lemma searchJobs_salary_filter_witness :
  search_validation (Sample.min_salary "60000") = []
  ∧ ∃ found,
      searchJobs (Sample.min_salary "60000") Sample.server
        = ({| status := 200; json := JJobs found |}, Sample.server)
      ∧ ((Sample.engineer, Sample.engineer_job) ∉ found)
      ∧ (Sample.analyst, Sample.analyst_job) ∈ found.
Proof.
  assert (Hvalid : search_validation (Sample.min_salary "60000") = [])
    by (vm_compute; reflexivity).
  assert (Hgiven : toNumber "60000" = 60000%Z) by (vm_compute; reflexivity).
  split; [exact Hvalid|].
  destruct (searchJobs_salary_filter (Sample.min_salary "60000") Sample.server Hvalid)
    as (found & Hrun & _ & Hmin & _).
  destruct (Hmin "60000" eq_refl) as (others & Hothers & Hiff & Hbelow).
  exists found. split; [exact Hrun|]. split.
  - apply (Hbelow Sample.engineer Sample.engineer_job 50000%Z eq_refl).
    rewrite Hgiven. reflexivity.
  - apply Hiff. split.
    + rewrite searchJobs_run in Hothers by (vm_compute; reflexivity).
      apply (f_equal (λ r, match json r.1 with JJobs l => l | _ => [] end))
        in Hothers.
      cbn [fst json] in Hothers. subst others.
      apply list_elem_of_filter. split; [vm_compute; reflexivity|].
      apply elem_of_map_to_list. vm_compute. reflexivity.
    + exists 60000%Z. split; [reflexivity|]. rewrite Hgiven. reflexivity.
Defined.

Lemma login_wrong_password_witness :
  login (Sample.credentials "employer@example.com" "letmein") Sample.server
    = (mkError 401 "Invalid email or password", Sample.server)
  ∧ login (Sample.credentials "nobody@example.com" "letmein") Sample.server
    = login (Sample.credentials "employer@example.com" "letmein") Sample.server.
Proof.
  apply (login_wrong_password
           (Sample.credentials "employer@example.com" "letmein")
           (Sample.credentials "nobody@example.com" "letmein")
           Sample.server Sample.acme Sample.acme_account);
    try reflexivity.
  - intros id' e' Hin _. unfold Sample.server in Hin. cbn [employers] in Hin.
    apply lookup_singleton_Some in Hin as [<- <-]. reflexivity.
  - intros id' e' Hin. unfold Sample.server in Hin. cbn [employers] in Hin.
    apply lookup_singleton_Some in Hin as [<- <-]. discriminate.
Defined.

Lemma createJob_rejected_witness :
  create_validation Sample.new_posting = []
  ∧ createJob Sample.new_posting Sample.server
    = (mkError 403 "Unauthorized: Employer ID missing.", Sample.server)
  ∧ status (createJob Sample.no_change Sample.server).1 = 400.
Proof.
  destruct (createJob_rejected Sample.new_posting Sample.server) as [_ Hvalid].
  destruct (createJob_rejected Sample.no_change Sample.server) as [Hinvalid _].
  split; [reflexivity|]. split; [exact (Hvalid eq_refl)|].
  rewrite Hinvalid; [reflexivity | discriminate].
Defined.

(** The failing input of C8: a create-job request with valid input is
    answered 403, not 201, and no job is stored. *)
Lemma createJob_valid_input_refused :
  create_validation Sample.new_posting = []
  ∧ createJob Sample.new_posting Sample.server
    = (mkError 403 "Unauthorized: Employer ID missing.", Sample.server)
  ∧ status (createJob Sample.new_posting Sample.server).1 ≠ 201.
Proof.
  assert (Hvalid : create_validation Sample.new_posting = [])
    by (vm_compute; reflexivity).
  assert (Hrun : createJob Sample.new_posting Sample.server
                 = (mkError 403 "Unauthorized: Employer ID missing.", Sample.server)).
  { unfold createJob, createJob_handler. rewrite Hvalid. reflexivity. }
  split; [exact Hvalid|]. split; [exact Hrun|].
  rewrite Hrun. discriminate.
Defined.

Lemma on_disconnect_first_match_witness :
  let registry := employerSockets Sample.shared_socket in
  let registry' := employerSockets (on_disconnect "sock-1" Sample.shared_socket) in
  registry = [("10", "sock-1"); ("9", "sock-1"); (Sample.acme, "sock-2")]
  ∧ Js.entries registry = [("9", "sock-1"); ("10", "sock-1"); (Sample.acme, "sock-2")]
  ∧ Js.get "9" registry' = None
  ∧ Js.get "10" registry' = Some "sock-1"
  ∧ Js.get Sample.acme registry' = Some "sock-2"
  ∧ length registry' = 2%nat
  ∧ on_disconnect "sock-3" Sample.shared_socket = Sample.shared_socket.
Proof.
  intros registry registry'.
  assert (Hkeys : NoDup (Js.keys (employerSockets Sample.shared_socket))).
  { do 3 apply on_register_keys. apply NoDup_nil_2. }
  destruct (on_disconnect_first_match "sock-1" Sample.shared_socket Hkeys)
    as (_ & _ & Hfirst).
  destruct (on_disconnect_first_match "sock-3" Sample.shared_socket Hkeys)
    as (_ & Hnone & _).
  destruct (Hfirst [] "9" [("10", "sock-1"); (Sample.acme, "sock-2")])
    as (_ & Hgone & Hkept & Hshared & Hlen).
  { vm_compute. reflexivity. }
  { intros kv Hin. by apply elem_of_nil in Hin. }
  split; [reflexivity|]. split; [vm_compute; reflexivity|].
  split; [exact Hgone|].
  split; [apply Hshared; [discriminate | reflexivity]|].
  split; [subst registry'; rewrite Hkept by discriminate; reflexivity|].
  split; [exact (Nat.succ_inj _ _ Hlen)|].
  apply Hnone. intros k v Hin.
  apply list_elem_of_In in Hin. vm_compute in Hin.
  destruct Hin as [[= <- <-]|[[= <- <-]|[[= <- <-]|[]]]]; discriminate.
Defined.

End Runs.

(** * Further properties of the handlers *)

(** ** Tokens and the authentication middleware *)

Section Tokens.
Context {P : Platform}.

Lemma split_go_plain sep cur s :
  includes sep s = false → Js.split_go sep cur s = [String.rev_app cur s].
Proof.
  revert cur. induction s as [|a r IH]; intros cur Hs; simpl in *; [done|].
  apply orb_false_iff in Hs as [Ha Hr]. rewrite Ha. by rewrite IH.
Qed.

Lemma split_go_sep sep cur s1 s2 :
  includes sep s1 = false →
  Js.split_go sep cur (s1 +:+ String sep s2)
    = String.rev_app cur s1 :: Js.split_go sep "" s2.
Proof.
  revert cur. induction s1 as [|a r IH]; intros cur Hs; simpl in *.
  - by rewrite Ascii.eqb_refl.
  - apply orb_false_iff in Hs as [Ha Hr]. rewrite Ha. by rewrite IH.
Qed.

(** [authHeader.split(' ')[1]] of a header ["Bearer " + token]. *)
Lemma split_bearer tok :
  includes " " tok = false →
  Js.split " " ("Bearer " +:+ tok) !! 1%nat = Some tok.
Proof.
  intros Htok. unfold Js.split.
  change ("Bearer " +:+ tok) with ("Bearer" +:+ String " " tok).
  rewrite split_go_sep by reflexivity.
  by rewrite split_go_plain.
Qed.

(** X1.  A request to a protected route whose [Authorization] header is
    refused by the middleware never reaches the handler: update and delete
    answer what the middleware answered and leave the state as it was.
    The answer is 401 when the header is missing or does not start with
    ["Bearer "], and 403 otherwise. *)
Theorem protected_routes_reject auth id b st denied :
  authenticateJWT auth = inl denied →
  updateJob auth id b st = (denied, st)
  ∧ deleteJob auth id st = (denied, st)
  ∧ (status denied = 401 ∨ status denied = 403)
  ∧ (status denied = 401 ↔
       auth = None ∨ ∃ h, auth = Some h ∧ Js.startsWith "Bearer " h = false).
Proof.
  intros Hauth. unfold updateJob, deleteJob. rewrite Hauth.
  split; [done|]. split; [done|].
  unfold authenticateJWT in Hauth.
  destruct auth as [h|]; [|injection Hauth as <-; simpl; split; [auto | split; auto]].
  destruct (Js.startsWith "Bearer " h) eqn:Hprefix.
  - assert (Htruthy : Js.truthy h = true).
    { destruct h; [discriminate Hprefix | reflexivity]. }
    rewrite Htruthy in Hauth. cbn [negb orb] in Hauth.
    destruct (Js.split " " h !! 1%nat ≫= jwt_verify); [done|].
    injection Hauth as <-. simpl. split; [auto|].
    split; [discriminate|].
    intros [?|(h' & [= <-] & Hh')]; [done | congruence].
  - rewrite orb_true_r in Hauth. injection Hauth as <-. simpl.
    split; [auto|]. split; [|done]. intros _. right. eauto.
Qed.

Lemma authenticateJWT_header tok :
  includes " " tok = false →
  authenticateJWT (Some ("Bearer " +:+ tok)) =
    match jwt_verify tok with
    | Some user => inr user
    | None => inl (mkError 403 "Forbidden: Invalid or expired token.")
    end.
Proof.
  intros Htok. unfold authenticateJWT.
  assert (Hprefix : Js.startsWith "Bearer " ("Bearer " +:+ tok) = true).
  { unfold Js.startsWith. simpl. by destruct tok. }
  rewrite Hprefix, split_bearer by done. reflexivity.
Qed.

Lemma authenticateJWT_denied auth denied :
  authenticateJWT auth = inl denied → status denied = 401 ∨ status denied = 403.
Proof.
  unfold authenticateJWT. destruct auth as [h|]; [|intros [= <-]; auto].
  destruct (_ || _); [intros [= <-]; auto|].
  destruct (_ ≫= _); [done | intros [= <-]; auto].
Qed.

(** X2.  A header ["Bearer " + token] whose token has no space in it is
    accepted exactly when [jwt.verify] accepts the token, and the request
    then carries the verified payload; a token that does not verify is
    answered 403. *)
Theorem authenticateJWT_bearer tok :
  includes " " tok = false →
  (∀ user, jwt_verify tok = Some user →
           authenticateJWT (Some ("Bearer " +:+ tok)) = inr user)
  ∧ (jwt_verify tok = None →
       authenticateJWT (Some ("Bearer " +:+ tok))
         = inl (mkError 403 "Forbidden: Invalid or expired token.")).
Proof.
  intros Htok. rewrite authenticateJWT_header by done.
  split; [intros user ->; done | intros ->; done].
Qed.

Lemma Employer_findOne_unique e st id employer :
  employers st !! id = Some employer →
  email employer = e →
  (∀ id' e', employers st !! id' = Some e' → email e' = e → id' = id) →
  (Employer_findOne e st).1 = Next (Some (id, employer)).
Proof.
  intros Hin Hmail Hunique.
  destruct (Employer_findOne e st).1 as [[[id1 e1]|]| |] eqn:E.
  - pose proof E as E'. apply Employer_findOne_Some in E' as [Hin1 Hmail1].
    assert (id1 = id) as -> by eauto.
    rewrite Hin in Hin1. by injection Hin1 as <-.
  - pose proof (proj1 (Employer_findOne_None _ _) E) as Hnone.
    by destruct (Hnone _ _ Hin).
  - unfold Employer_findOne, gets in E. done.
  - unfold Employer_findOne, gets in E. done.
Qed.

(** X3.  Login with the email of a registered employer and a password
    that matches the stored hash is answered 200 with the token signed for
    [{ id, email }] of that employer; when that token verifies and holds no
    space, the header ["Bearer " + token] passes the middleware with that
    payload, and with it the employer may delete a job whose [employerId]
    is the employer's identifier. *)
Theorem login_token_accepted req st id employer jid job :
  login_validation req = [] →
  employers st !! id = Some employer →
  email employer = Js.toStr (body_email req) →
  (∀ id' e', employers st !! id' = Some e' →
             email e' = Js.toStr (body_email req) → id' = id) →
  bcrypt_compare (Js.toStr (body_password req)) (password employer) = true →
  let user := {| user_id := id; user_email := email employer |} in
  let header := Some ("Bearer " +:+ jwt_sign user) in
  jwt_verify (jwt_sign user) = Some user →
  includes " " (jwt_sign user) = false →
  isMongoId jid = true →
  jobs st !! jid = Some job →
  employerId job = id →
  login req st = ({| status := 200; json := JToken (jwt_sign user) |}, st)
  ∧ authenticateJWT header = inr user
  ∧ deleteJob header jid st =
      ({| status := 200; json := JMessage "Job deleted successfully." |},
       set_jobs (delete jid) st).
Proof.
  intros Hv Hin Hmail Hunique Hpw user header Hverify Hspace Hjid Hjob Howner.
  assert (Hauth : authenticateJWT header = inr user).
  { subst header. rewrite authenticateJWT_header by done. by rewrite Hverify. }
  split; [|split; [done|]].
  - rewrite login_run by done.
    rewrite (Employer_findOne_unique _ _ _ _ Hin Hmail Hunique). by rewrite Hpw.
  - unfold deleteJob. rewrite Hauth, deleteJob_handler_run, Hjob by done.
    subst user. cbn [user_id]. by rewrite (proj2 (String.eqb_eq _ _) Howner).
Qed.

End Tokens.

(** ** Employer registration *)

Section Accounts.
Context {P : Platform} {B : Bcrypt}.

Lemma register_validation_nil req :
  register_validation req = [] ↔
    notEmpty (Js.toStr (register_name req)) = true
    ∧ isEmail (Js.toStr (register_email req)) = true
    ∧ (6 <=? String.length (Js.toStr (register_password req)))%nat = true.
Proof. unfold register_validation. rewrite !app_nil, !check_nil. tauto. Qed.

(** The employer document that a registration request makes. *)
Lemma registerEmployer_run salt req st :
  register_validation req = [] →
  registerEmployer salt req st =
    match (Employer_findOne (Js.toStr (register_email req)) st).1 with
    | Next None =>
        ({| status := 201; json := JMessage "Employer registered successfully" |},
         set_employers
           (insert (newObjectId (dom (employers st)))
                   {| name := Js.toStr (register_name req);
                      email := Js.toStr (register_email req);
                      password := bcrypt_hash salt (Js.toStr (register_password req)) |})
           st)
    | _ => (mkError 400 "Employer with that email already exists", st)
    end.
Proof.
  intros Hv. unfold registerEmployer. rewrite Hv.
  apply register_validation_nil in Hv as (Hname & Hmail & _).
  unfold try_catch, bind.
  destruct (Employer_findOne (Js.toStr (register_email req)) st) as [found st0] eqn:E.
  assert (st0 = st) as -> by (unfold Employer_findOne, gets in E; congruence).
  cbn [fst].
  destruct found as [[[id e]|]| |];
    [reflexivity | | unfold Employer_findOne, gets in E; done ..].
  unfold gets, Employer_save, EmployerSchema_valid. cbn [name email password].
  rewrite Hname, (proj2 (notEmpty_true _) (isEmail_nonempty _ Hmail)).
  rewrite (proj2 (notEmpty_true _) (bcrypt_hash_nonempty _ _)). cbn [andb].
  unfold bind, gets.
  rewrite (proj1 (not_elem_of_dom _ _) (newObjectId_fresh (dom (employers st)))).
  rewrite E. reflexivity.
Qed.


(** X6.  A registration for an email that an employer already has is
    answered 400 "Employer with that email already exists" and changes
    nothing, whatever name and password it carries. *)
Theorem registerEmployer_duplicate salt req st id employer :
  register_validation req = [] →
  employers st !! id = Some employer →
  email employer = Js.toStr (register_email req) →
  registerEmployer salt req st =
    (mkError 400 "Employer with that email already exists", st).
Proof.
  intros Hv Hin Hmail. rewrite registerEmployer_run by done.
  destruct (Employer_findOne (Js.toStr (register_email req)) st).1
    as [[[id1 e1]|]| |] eqn:E; try reflexivity.
  pose proof (proj1 (Employer_findOne_None _ _) E) as Hnone.
  by destruct (Hnone _ _ Hin).
Qed.

(** X7.  Registration keeps the emails of the employer collection
    pairwise different, whatever the request. *)
Theorem registerEmployer_unique_emails salt req st :
  unique_emails st → unique_emails (registerEmployer salt req st).2.
Proof.
  intros Huniq.
  destruct (decide (register_validation req = [])) as [Hv|Hv].
  - rewrite registerEmployer_run by done.
    destruct (Employer_findOne (Js.toStr (register_email req)) st).1
      as [[[id1 e1]|]| |] eqn:E; try exact Huniq.
    pose proof (proj1 (Employer_findOne_None _ _) E) as Hnone.
    cbn [snd]. intros id1 id2 e1 e2. cbn [employers set_employers].
    rewrite !lookup_insert. repeat case_decide; subst.
    + done.
    + intros [= <-] Hin2 Hmail. simpl in Hmail. by destruct (Hnone _ _ Hin2).
    + intros Hin1 [= <-] Hmail. simpl in Hmail. by destruct (Hnone _ _ Hin1).
    + apply Huniq.
  - unfold registerEmployer.
    destruct (register_validation req) eqn:E; [done|]. exact Huniq.
Qed.

(** X8.  After a successful registration, a login with the same email and
    password is answered 200 with the token signed for the new employer. *)
Theorem register_then_login salt req st :
  register_validation req = [] →
  (∀ id e, employers st !! id = Some e → email e ≠ Js.toStr (register_email req)) →
  let st' := (registerEmployer salt req st).2 in
  let credentials := {| body_email := register_email req;
                        body_password := register_password req |} in
  status (registerEmployer salt req st).1 = 201
  ∧ login credentials st' =
      ({| status := 200;
          json := JToken (jwt_sign {| user_id := newObjectId (dom (employers st));
                                      user_email := Js.toStr (register_email req) |}) |},
       st').
Proof.
  intros Hv Hnew st' credentials. subst st'.
  rewrite registerEmployer_run by done.
  rewrite (proj2 (Employer_findOne_None _ _) Hnew). cbn [fst snd status].
  split; [done|].
  apply register_validation_nil in Hv as (_ & Hmail & Hlen).
  assert (Hlogin : login_validation credentials = []).
  { apply login_validation_nil. subst credentials. cbn [body_email body_password].
    split; [done|]. apply notEmpty_true. intros Hpw. by rewrite Hpw in Hlen. }
  rewrite login_run by done.
  set (_id := newObjectId (dom (employers st))).
  set (e := {| name := Js.toStr (register_name req);
               email := Js.toStr (register_email req);
               password := bcrypt_hash salt (Js.toStr (register_password req)) |}).
  rewrite (Employer_findOne_unique _ _ _id e).
  - subst credentials e. cbn [body_password password email].
    by rewrite bcrypt_hash_compare.
  - apply lookup_insert_eq.
  - done.
  - intros id' e' Hin Hmail'. cbn [employers set_employers] in Hin.
    destruct (decide (_id = id')) as [<-|Hne]; [done|].
    rewrite lookup_insert_ne in Hin by done. by destruct (Hnew _ _ Hin).
Qed.

End Accounts.

(** ** Reading and changing job postings *)

Section Postings.
Context {P : Platform}.

Lemma getJob_run id st :
  isMongoId id = true →
  getJob id st =
    (match jobs st !! id with
     | Some job => {| status := 200; json := JJob id job |}
     | None => mkError 404 "Job not found"
     end, st).
Proof.
  intros Hid. unfold getJob. rewrite Hid. simpl.
  unfold try_catch, bind, Job_findById, gets.
  by destruct (jobs st !! id).
Qed.

(** What an update that is answered 200 went through. *)
Lemma updateJob_200 auth id b st :
  status (updateJob auth id b st).1 = 200 →
  ∃ user job,
    authenticateJWT auth = inr user
    ∧ update_validation id b = []
    ∧ jobs st !! id = Some job
    ∧ employerId job = user_id user
    ∧ JobSchema_valid (merge b job) = true
    ∧ updateJob auth id b st =
        ({| status := 200; json := JJob id (merge b job) |},
         set_jobs (insert id (merge b job)) st).
Proof.
  unfold updateJob. destruct (authenticateJWT auth) as [denied|user] eqn:Hauth.
  { intros Hs. apply authenticateJWT_denied in Hauth as [H1|H1];
      cbn [fst] in Hs; congruence. }
  destruct (decide (update_validation id b = [])) as [Hv|Hv].
  - rewrite updateJob_handler_run by done.
    destruct (jobs st !! id) as [job|]; [|discriminate].
    destruct (String.eqb_spec (employerId job) (user_id user)) as [Heq|Hne];
      [|discriminate].
    cbn [negb]. destruct (JobSchema_valid (merge b job)) eqn:Hvalid; [|discriminate].
    intros _. by exists user, job.
  - rewrite updateJob_handler_invalid by done. discriminate.
Qed.

(** What a delete that is answered 200 went through. *)
Lemma deleteJob_200 auth id st :
  status (deleteJob auth id st).1 = 200 →
  ∃ user job,
    authenticateJWT auth = inr user
    ∧ isMongoId id = true
    ∧ jobs st !! id = Some job
    ∧ employerId job = user_id user
    ∧ deleteJob auth id st =
        ({| status := 200; json := JMessage "Job deleted successfully." |},
         set_jobs (delete id) st).
Proof.
  unfold deleteJob. destruct (authenticateJWT auth) as [denied|user] eqn:Hauth.
  { intros Hs. apply authenticateJWT_denied in Hauth as [H1|H1];
      cbn [fst] in Hs; congruence. }
  destruct (isMongoId id) eqn:Hid.
  - rewrite deleteJob_handler_run by done.
    destruct (jobs st !! id) as [job|]; [|discriminate].
    destruct (String.eqb_spec (employerId job) (user_id user)) as [Heq|Hne];
      [|discriminate].
    intros _. by exists user, job.
  - unfold deleteJob_handler. rewrite Hid. discriminate.
Qed.

(** X10.  After a delete that is answered 200, the job is gone: reading
    it and deleting it again are both answered 404, and nothing more
    changes. *)
Theorem delete_then_get auth id st :
  status (deleteJob auth id st).1 = 200 →
  let st' := (deleteJob auth id st).2 in
  getJob id st' = (mkError 404 "Job not found", st')
  ∧ deleteJob auth id st' = (mkError 404 "Job not found.", st').
Proof.
  intros Hs st'. subst st'.
  destruct (deleteJob_200 _ _ _ Hs) as (user & job & Hauth & Hid & _ & _ & ->).
  cbn [snd]. split.
  - rewrite getJob_run by done. cbn [jobs set_jobs]. by rewrite lookup_delete_eq.
  - unfold deleteJob. rewrite Hauth, deleteJob_handler_run by done.
    cbn [jobs set_jobs]. by rewrite lookup_delete_eq.
Qed.

Lemma createJob_handler_run user b st :
  create_validation b = [] →
  user_id user ≠ "" →
  let job := {| title := Js.toStr (body_title b);
                description := Js.toStr (body_description b);
                location := Js.toStr (body_location b);
                salaryRange := {| salaryMin := toNumber <$> salary_min b;
                                  salaryMax := toNumber <$> salary_max b |};
                employerId := user_id user |} in
  JobSchema_valid job = true
  ∧ createJob_handler (Some user) b st =
      ({| status := 201; json := JJob (newObjectId (dom (jobs st))) job |},
       set_jobs (insert (newObjectId (dom (jobs st))) job) st).
Proof.
  intros Hv Hu job. unfold createJob_handler. rewrite Hv.
  unfold create_validation in Hv.
  rewrite !app_nil, !check_nil, !notEmpty_true in Hv.
  destruct Hv as (Ht & Hd & Hl & Hmin & Hmax).
  apply isNumeric_nonempty in Hmin, Hmax.
  assert (Hvalid : JobSchema_valid job = true).
  { unfold JobSchema_valid. subst job.
    cbn [title description location salaryRange employerId salaryMin salaryMax].
    rewrite !(proj2 (notEmpty_true _)) by done.
    destruct (salary_min b); [|done]. destruct (salary_max b); [|done]. done. }
  split; [done|].
  cbn [fmap option_fmap option_map Js.truthy_opt].
  rewrite (proj2 (truthy_true _) Hu). cbn [negb].
  unfold try_catch, bind, gets, Job_save.
  match goal with |- context [JobSchema_valid ?j] =>
    replace j with job
      by (subst job; unfold salary_min, salary_max, castSalary;
          by destruct (body_salaryRange b))
  end.
  rewrite Hvalid. reflexivity.
Qed.

(** X13.  Given a request that carries an identity, the create handler
    answers a valid body with 201 and stores, under a new identifier, a job
    with the title, description and location of the body, the salary bounds
    cast to numbers and the identity as [employerId]; the jobs stored
    before are kept. *)
Theorem createJob_handler_stores user b st :
  create_validation b = [] →
  user_id user ≠ "" →
  ∃ _id job,
    createJob_handler (Some user) b st =
      ({| status := 201; json := JJob _id job |}, set_jobs (insert _id job) st)
    ∧ jobs st !! _id = None
    ∧ employerId job = user_id user
    ∧ Some (title job) = body_title b
    ∧ Some (description job) = body_description b
    ∧ Some (location job) = body_location b
    ∧ salaryMin (salaryRange job) = toNumber <$> salary_min b
    ∧ salaryMax (salaryRange job) = toNumber <$> salary_max b
    ∧ is_Some (salaryMin (salaryRange job)) ∧ is_Some (salaryMax (salaryRange job))
    ∧ (∀ id j, jobs st !! id = Some j →
               jobs (createJob_handler (Some user) b st).2 !! id = Some j).
Proof.
  intros Hv Hu.
  destruct (createJob_handler_run user b st Hv Hu) as [Hvalid Hrun].
  eexists _, _. split; [exact Hrun|].
  assert (Hfresh : jobs st !! newObjectId (dom (jobs st)) = None).
  { apply not_elem_of_dom, newObjectId_fresh. }
  split; [done|]. split; [done|].
  unfold create_validation in Hv.
  rewrite !app_nil, !check_nil, !notEmpty_true in Hv.
  destruct Hv as (Ht & Hd & Hl & _ & _).
  cbn [title description location salaryRange salaryMin salaryMax].
  split; [by destruct (body_title b)|].
  split; [by destruct (body_description b)|].
  split; [by destruct (body_location b)|].
  split; [done|]. split; [done|].
  unfold JobSchema_valid in Hvalid.
  cbn [title description location salaryRange salaryMin salaryMax employerId] in Hvalid.
  rewrite !andb_true_iff, !bool_decide_eq_true in Hvalid.
  split; [tauto|]. split; [tauto|].
  intros id j Hin. rewrite Hrun. cbn [snd jobs set_jobs].
  rewrite lookup_insert_ne; [done|]. intros <-. congruence.
Qed.

(** X14.  Every route that writes to the job collection keeps it within
    JobSchema: if every stored job satisfies the schema before an update, a
    delete or a create, every stored job does afterwards. *)
Theorem jobs_schema_invariant auth user id b st :
  jobs_valid st →
  jobs_valid (updateJob auth id b st).2
  ∧ jobs_valid (deleteJob auth id st).2
  ∧ jobs_valid (createJob_handler user b st).2.
Proof.
  intros Hall. split; [|split].
  - unfold updateJob. destruct (authenticateJWT auth) as [denied|u]; [done|].
    destruct (decide (update_validation id b = [])) as [Hv|Hv].
    + rewrite updateJob_handler_run by done.
      destruct (jobs st !! id) as [job|]; [|done].
      destruct (negb _); [done|].
      destruct (JobSchema_valid (merge b job)) eqn:Hvalid; [|done].
      intros id' j. cbn [snd jobs set_jobs]. rewrite lookup_insert.
      case_decide; [by intros [= <-] | apply Hall].
    + by rewrite updateJob_handler_invalid.
  - unfold deleteJob. destruct (authenticateJWT auth) as [denied|u]; [done|].
    destruct (isMongoId id) eqn:Hid.
    + rewrite deleteJob_handler_run by done.
      destruct (jobs st !! id) as [job|]; [|done].
      destruct (negb _); [done|].
      intros id' j. cbn [snd jobs set_jobs]. rewrite lookup_delete.
      case_decide; [done | apply Hall].
    + unfold deleteJob_handler. by rewrite Hid.
  - unfold createJob_handler.
    destruct (create_validation b); [|done].
    unfold try_catch, bind, gets, Job_save.
    destruct (negb _); [done|].
    match goal with |- context [JobSchema_valid ?j] =>
      destruct (JobSchema_valid j) eqn:Hvalid end; [|done].
    intros id' j. unfold modify, reply. cbn [snd jobs set_jobs].
    rewrite lookup_insert.
    case_decide; [by intros [= <-] | apply Hall].
Qed.

(** X15.  A search never changes the state and is answered 400 exactly
    when a supplied salary bound is not numeric.  A search without salary
    bounds and without a title or location returns every stored job, each
    once. *)
Theorem searchJobs_outcomes q st :
  (searchJobs q st).2 = st
  ∧ (status (searchJobs q st).1 = 400 ↔ search_validation q ≠ [])
  ∧ (Js.truthy_opt (query_title q) = false →
     Js.truthy_opt (query_location q) = false →
     query_minSalary q = None → query_maxSalary q = None →
     ∃ found,
       (searchJobs q st).1 = {| status := 200; json := JJobs found |}
       ∧ NoDup found
       ∧ ∀ id j, (id, j) ∈ found ↔ jobs st !! id = Some j).
Proof.
  split; [|split].
  - unfold searchJobs. by destruct (search_validation q).
  - destruct (decide (search_validation q = [])) as [Hv|Hv].
    + rewrite searchJobs_run by done. simpl. split; [discriminate|done].
    + unfold searchJobs. destruct (search_validation q) eqn:E; [done|]. done.
  - intros Ht Hl Hmin Hmax.
    assert (Hv : search_validation q = []).
    { apply search_validation_nil. rewrite Hmin, Hmax. done. }
    rewrite searchJobs_run by done. eexists. split; [reflexivity|].
    split; [apply NoDup_filter, NoDup_map_to_list|].
    intros id j. rewrite list_elem_of_filter, elem_of_map_to_list.
    unfold matches, build_filters.
    cbn [filter_text filter_min filter_max snd].
    rewrite Ht, Hl, Hmin, Hmax. simpl. tauto.
Qed.

End Postings.

(** ** Submissions, the registry and notifications together *)

Section Presence.
Context {P : Platform}.

Lemma get_set_eq e sid (o : Js.Obj) : Js.get e (Js.set e sid o) = Some sid.
Proof.
  induction o as [|[k v] o IH]; simpl.
  - by rewrite decide_True.
  - destruct (decide (k = e)) as [->|Hne]; simpl.
    + by rewrite decide_True.
    + by rewrite decide_False.
Qed.

Lemma get_set_ne e k sid (o : Js.Obj) :
  k ≠ e → Js.get k (Js.set e sid o) = Js.get k o.
Proof.
  intros Hne. induction o as [|[k' v'] o IH]; simpl.
  - by rewrite decide_False.
  - destruct (decide (k' = e)) as [->|Hne']; simpl.
    + by rewrite !decide_False.
    + by rewrite IH.
Qed.

Lemma get_None_keys e (o : Js.Obj) : Js.get e o = None ↔ e ∉ Js.keys o.
Proof.
  unfold Js.keys. induction o as [|[k v] o IH]; simpl.
  - split; [intros _; apply not_elem_of_nil | done].
  - rewrite not_elem_of_cons. destruct (decide (k = e)) as [->|Hne].
    + split; [done | intros [? _]; done].
    + rewrite IH. split; [intros ?; split; [congruence | done] | intros [_ ?]; done].
Qed.

Lemma get_Some_elem k v (o : Js.Obj) : Js.get k o = Some v → (k, v) ∈ o.
Proof.
  induction o as [|[k' v'] o IH]; simpl; [done|].
  destruct (decide (k' = k)) as [->|Hne].
  - intros [= ->]. by left.
  - intros Hget. right. by apply IH.
Qed.

Lemma elem_of_set k v e sid (o : Js.Obj) :
  (k, v) ∈ Js.set e sid o → (k = e ∧ v = sid) ∨ (k, v) ∈ o.
Proof.
  induction o as [|[k' v'] o IH]; simpl.
  - intros [= -> ->]%list_elem_of_singleton. by left.
  - destruct (decide (k' = e)) as [->|Hne].
    + intros [[= -> ->]|Hin]%elem_of_cons; [by left | right; by right].
    + intros [[= -> ->]|Hin]%elem_of_cons; [right; by left|].
      destruct (IH Hin) as [?|?]; [by left | right; by right].
Qed.

Lemma length_set e sid (o : Js.Obj) :
  length (Js.set e sid o)
    = match Js.get e o with Some _ => length o | None => S (length o) end.
Proof.
  induction o as [|[k v] o IH]; simpl; [done|].
  destruct (decide (k = e)) as [->|Hne]; simpl; [done|].
  rewrite IH. by destruct (Js.get e o).
Qed.

Lemma del_set e sid (o : Js.Obj) : Js.del e (Js.set e sid o) = Js.del e o.
Proof.
  unfold Js.del. induction o as [|[k v] o IH]; simpl.
  - rewrite filter_cons_False; [done | simpl; by intros ?].
  - destruct (decide (k = e)) as [->|Hne].
    + rewrite !filter_cons_False; [done | simpl; by intros ? ..].
    + rewrite !filter_cons_True by done. by rewrite IH.
Qed.

(** The listener for [disconnect] deletes the key of an entry on that
    socket, or nothing. *)
Lemma on_disconnect_cases sid st :
  on_disconnect sid st = st ∧ (∀ k v, (k, v) ∈ employerSockets st → v ≠ sid)
  ∨ ∃ k, (k, sid) ∈ employerSockets st
         ∧ on_disconnect sid st = set_employerSockets (Js.del k) st.
Proof.
  unfold on_disconnect, set_employerSockets.
  destruct (disconnect_loop_cases sid (Js.entries (employerSockets st))
              (employerSockets st)) as [[-> Hall]|(pre & k & post & He & _ & ->)].
  - left. split; [by destruct st|].
    intros k v Hin. apply (Hall (k, v)). by apply entries_elem.
  - right. exists k. split; [|done].
    apply entries_elem. rewrite He. apply elem_of_app. right. by left.
Qed.

(** X16.  Whatever its answer, a submission leaves the jobs, the
    employers and the presence registry as they were, keeps every stored
    application, adds at most one, and appends at most one event to what the
    Socket.IO server has emitted. *)
Theorem submitApplication_frame now req st :
  let st' := (submitApplication now req st).2 in
  jobs st' = jobs st
  ∧ employers st' = employers st
  ∧ employerSockets st' = employerSockets st
  ∧ (∀ id a, applications st !! id = Some a → applications st' !! id = Some a)
  ∧ (size (applications st') ≤ S (size (applications st)))%nat
  ∧ ∃ more, emitted (io st') = (emitted (io st) ++ more)%list
            ∧ (length more ≤ 1)%nat.
Proof.
  intros st'. subst st'.
  destruct (decide (apply_validation req = [])) as [Hv|Hv].
  - destruct (jobs st !! params_jobId req) as [job|] eqn:Hjob.
    + destruct (submitApplication_run now req st job Hv Hjob) as [Hfresh ->].
      assert (Hkept : ∀ id a, applications st !! id = Some a →
                <[newObjectId (dom (applications st)) := application_of now req]>
                  (applications st) !! id = Some a).
      { intros id a Hin. rewrite lookup_insert_ne; [done|]. intros <-. congruence. }
      cbn [snd jobs employers employerSockets applications
           io set_io set_applications emitted].
      do 4 (split; [done|]). rewrite map_size_insert_None by exact Hfresh.
      split; [done|]. eexists [_]. split; [done | simpl; lia].
    + rewrite submitApplication_no_job by done. cbn [snd].
      do 4 (split; [done|]). split; [lia|]. exists []. split; [by rewrite app_nil_r | simpl; lia].
  - rewrite submitApplication_invalid by done. cbn [snd].
    do 4 (split; [done|]). split; [lia|]. exists []. split; [by rewrite app_nil_r | simpl; lia].
Qed.

(** X18.  Submissions keep every stored application attached to a stored
    job: if each application references a stored job before a submission,
    each one does afterwards, the new one included. *)
Theorem submitApplication_referential now req st :
  applications_reference_jobs st →
  applications_reference_jobs (submitApplication now req st).2.
Proof.
  intros Href.
  destruct (decide (apply_validation req = [])) as [Hv|Hv].
  - destruct (jobs st !! params_jobId req) as [job|] eqn:Hjob.
    + destruct (submitApplication_run now req st job Hv Hjob) as [_ ->].
      assert (Hgoal : ∀ id a,
        <[newObjectId (dom (applications st)) := application_of now req]>
          (applications st) !! id = Some a → is_Some (jobs st !! jobId a)).
      { intros id a. rewrite lookup_insert. case_decide.
        - intros [= <-]. cbn [jobId application_of]. by rewrite Hjob.
        - apply Href. }
      exact Hgoal.
    + by rewrite submitApplication_no_job.
  - by rewrite submitApplication_invalid.
Qed.

(** X19.  When a socket has registered for an employer, a valid
    submission to a job of that employer is answered 201 and dispatches
    exactly one event, to that socket, with the payload of the submission. *)
Theorem register_then_notify now req st job sid e :
  e ≠ "" →
  apply_validation req = [] →
  jobs st !! params_jobId req = Some job →
  employerId job = e →
  let registered := on_register sid (Some {| data_employerId := Some e |}) st in
  let result := submitApplication now req registered in
  status result.1 = 201
  ∧ dispatched (io result.2)
    = (dispatched (io st) ++ [notification (Some sid) req])%list.
Proof.
  intros He Hv Hjob Howner registered result.
  assert (Hreg : registered = set_employerSockets (Js.set e sid) st).
  { subst registered. unfold on_register. cbn [mbind option_bind data_employerId].
    by rewrite (proj2 (truthy_true e) He). }
  subst result. rewrite Hreg.
  destruct (submitApplication_run now req (set_employerSockets (Js.set e sid) st) job
              Hv Hjob) as [_ ->].
  cbn [fst snd status io set_io set_applications set_employerSockets employerSockets].
  split; [done|]. unfold dispatched. cbn [emitted].
  rewrite filter_app, Howner, get_set_eq. f_equal.
Qed.

(** X20.  Once the only socket registered for an employer has
    disconnected, a valid submission to a job of that employer is still
    answered 201 and stored, and dispatches no event. *)
Theorem disconnect_then_silent now req st job sid e :
  NoDup (Js.keys (employerSockets st)) →
  Js.get e (employerSockets st) = Some sid →
  (∀ k, Js.get k (employerSockets st) = Some sid → k = e) →
  apply_validation req = [] →
  jobs st !! params_jobId req = Some job →
  employerId job = e →
  let result := submitApplication now req (on_disconnect sid st) in
  Js.get e (employerSockets (on_disconnect sid st)) = None
  ∧ status result.1 = 201
  ∧ size (applications result.2) = S (size (applications st))
  ∧ dispatched (io result.2) = dispatched (io st).
Proof.
  intros Hnd Hget Honly Hv Hjob Howner result.
  assert (Hoff : on_disconnect sid st = set_employerSockets (Js.del e) st).
  { destruct (on_disconnect_cases sid st) as [[_ Hnone]|(k & Hin & ->)].
    - apply get_Some_elem in Hget. by destruct (Hnone _ _ Hget).
    - by rewrite (Honly k (get_elem _ _ _ Hnd Hin)). }
  subst result. rewrite Hoff. cbn [employerSockets set_employerSockets].
  split; [apply get_del_eq|].
  destruct (submitApplication_run now req (set_employerSockets (Js.del e) st) job
              Hv Hjob) as [Hfresh ->].
  cbn [io set_employerSockets employerSockets applications] in *.
  cbn [fst snd status io set_io set_applications set_employerSockets applications].
  split; [done|]. split; [by rewrite map_size_insert_None|].
  unfold dispatched. cbn [emitted].
  rewrite filter_app, Howner, get_del_eq.
  rewrite filter_cons_False, filter_nil, app_nil_r; [done|].
  simpl. by intros [? ?].
Qed.

(** X22.  Whatever sequence of [register] and [disconnect] events the
    server receives, the registry keeps at most one entry per employer, and
    the events change nothing but the registry. *)
Theorem registry_keys_invariant evs st :
  NoDup (Js.keys (employerSockets st)) →
  let st' := run_events evs st in
  NoDup (Js.keys (employerSockets st'))
  ∧ jobs st' = jobs st ∧ employers st' = employers st
  ∧ applications st' = applications st ∧ io st' = io st.
Proof.
  revert st. induction evs as [|ev evs IH]; intros st Hnd; [done|].
  cbn [run_events foldl]. fold (run_events evs (on_event ev st)).
  assert (Hstep : NoDup (Js.keys (employerSockets (on_event ev st)))
                  ∧ jobs (on_event ev st) = jobs st
                  ∧ employers (on_event ev st) = employers st
                  ∧ applications (on_event ev st) = applications st
                  ∧ io (on_event ev st) = io st).
  { destruct ev as [sid data|sid]; cbn [on_event].
    - split; [by apply on_register_keys|]. unfold on_register.
      destruct (data ≫= data_employerId) as [e|]; [|done]. by destruct (Js.truthy e).
    - split; [by apply on_disconnect_keys | done]. }
  destruct Hstep as (Hnd' & <- & <- & <- & <-). by apply IH.
Qed.

(** X23.  A disconnect never unregisters an employer bound to another
    socket: an employer who has since registered on a new socket stays
    reachable when the old one goes away. *)
Theorem on_disconnect_other_socket sid sid' e st :
  NoDup (Js.keys (employerSockets st)) →
  Js.get e (employerSockets st) = Some sid' →
  sid' ≠ sid →
  Js.get e (employerSockets (on_disconnect sid st)) = Some sid'.
Proof.
  intros Hnd Hget Hne.
  destruct (on_disconnect_cases sid st) as [[-> _]|(k & Hin & ->)]; [done|].
  cbn [employerSockets set_employerSockets].
  rewrite get_del_ne; [done|]. intros ->.
  rewrite (get_elem _ _ _ Hnd Hin) in Hget. congruence.
Qed.

(** X24.  A socket that registers for an employer and then disconnects,
    no one else being registered on it, leaves the registry without that
    employer and with every other entry as before; when the employer had
    no entry before, the registry is exactly what it was. *)
Theorem register_disconnect_roundtrip sid e st :
  e ≠ "" →
  (∀ k v, (k, v) ∈ employerSockets st → v ≠ sid) →
  let st' := on_disconnect sid (on_register sid (Some {| data_employerId := Some e |}) st) in
  employerSockets st' = Js.del e (employerSockets st)
  ∧ Js.get e (employerSockets st') = None
  ∧ (Js.get e (employerSockets st) = None → st' = st).
Proof.
  intros He Hfree st'.
  assert (Hreg : on_register sid (Some {| data_employerId := Some e |}) st
                 = set_employerSockets (Js.set e sid) st).
  { unfold on_register. cbn [mbind option_bind data_employerId].
    by rewrite (proj2 (truthy_true e) He). }
  assert (Hoff : employerSockets st' = Js.del e (employerSockets st)).
  { subst st'. rewrite Hreg.
    destruct (on_disconnect_cases sid (set_employerSockets (Js.set e sid) st))
      as [[_ Hnone]|(k & Hin & ->)].
    - destruct (Hnone e sid); [|done].
      cbn [employerSockets set_employerSockets].
      apply get_Some_elem, get_set_eq.
    - cbn [employerSockets set_employerSockets] in *.
      apply elem_of_set in Hin as [[-> _]|Hin]; [apply del_set|].
      by destruct (Hfree _ _ Hin). }
  split; [done|]. split; [rewrite Hoff; apply get_del_eq|].
  intros Hnew%get_None_keys.
  assert (Hsame : employerSockets st' = employerSockets st).
  { rewrite Hoff. by apply del_absent. }
  clear Hoff. subst st'. rewrite Hreg in *.
  destruct (on_disconnect_cases sid (set_employerSockets (Js.set e sid) st))
    as [[_ Hnone]|(k & Hin & Heq)].
  - destruct (Hnone e sid); [|done].
    cbn [employerSockets set_employerSockets]. apply get_Some_elem, get_set_eq.
  - rewrite Heq in *. cbn [employerSockets set_employerSockets] in Hsame.
    unfold set_employerSockets. cbn [employerSockets]. rewrite Hsame.
    by destruct st.
Qed.

End Presence.

(** ** These properties on the sample data *)

Section MoreRuns.
#[local] Existing Instance Reference.platform.
#[local] Existing Instance ReferenceBcrypt.bcrypt.

Lemma sample_employers id e :
  employers Sample.server !! id = Some e → id = Sample.acme ∧ e = Sample.acme_account.
Proof.
  unfold Sample.server. cbn [employers].
  intros [<- <-]%lookup_singleton_Some. done.
Qed.

Lemma sample_jobs id j :
  jobs Sample.server !! id = Some j →
  (id = Sample.engineer ∧ j = Sample.engineer_job)
  ∨ (id = Sample.analyst ∧ j = Sample.analyst_job).
Proof.
  unfold Sample.server. cbn [jobs].
  intros [[<- <-]|[_ [<- <-]%lookup_singleton_Some]]%lookup_insert_Some; auto.
Qed.

Lemma protected_routes_reject_witness :
  updateJob None Sample.engineer (Sample.retitle "Staff Engineer") Sample.server
    = (mkError 401 "Unauthorized: No token provided.", Sample.server)
  ∧ deleteJob (Some "Bearer forged") Sample.engineer Sample.server
    = (mkError 403 "Forbidden: Invalid or expired token.", Sample.server).
Proof.
  assert (H1 : authenticateJWT None = inl (mkError 401 "Unauthorized: No token provided."))
    by reflexivity.
  assert (H2 : authenticateJWT (Some "Bearer forged")
               = inl (mkError 403 "Forbidden: Invalid or expired token."))
    by (vm_compute; reflexivity).
  split.
  - exact (proj1 (protected_routes_reject None Sample.engineer
                    (Sample.retitle "Staff Engineer") Sample.server _ H1)).
  - exact (proj1 (proj2 (protected_routes_reject (Some "Bearer forged") Sample.engineer
                           Sample.no_change Sample.server _ H2))).
Defined.

Lemma authenticateJWT_bearer_witness :
  includes " " "65f0000000000000000000e1|employer@example.com" = false
  ∧ authenticateJWT (Some ("Bearer " +:+ "65f0000000000000000000e1|employer@example.com"))
    = inr {| user_id := Sample.acme; user_email := "employer@example.com" |}.
Proof.
  assert (Hspace : includes " " "65f0000000000000000000e1|employer@example.com" = false)
    by (vm_compute; reflexivity).
  split; [exact Hspace|].
  apply (proj1 (authenticateJWT_bearer _ Hspace)). vm_compute. reflexivity.
Defined.

Lemma login_token_accepted_witness :
  let req := Sample.credentials "employer@example.com" "password123" in
  let token := "65f0000000000000000000e1|employer@example.com" in
  login req Sample.server = ({| status := 200; json := JToken token |}, Sample.server)
  ∧ status (deleteJob (Some ("Bearer " +:+ token)) Sample.engineer Sample.server).1 = 200.
Proof.
  intros req token.
  destruct (login_token_accepted req Sample.server Sample.acme Sample.acme_account
              Sample.engineer Sample.engineer_job) as (Hlogin & _ & Hdelete);
    try (vm_compute; reflexivity).
  { intros id' e' Hin _. by destruct (sample_employers _ _ Hin). }
  split; [exact Hlogin|].
  change (Some ("Bearer " +:+ token))
    with (Some ("Bearer " +:+ jwt_sign {| user_id := Sample.acme;
                                           user_email := email Sample.acme_account |})).
  rewrite Hdelete. reflexivity.
Defined.


Lemma registerEmployer_duplicate_witness :
  registerEmployer "salt" (Sample2.signup "Impostor" "employer@example.com" "hunter22")
    Sample.server
  = (mkError 400 "Employer with that email already exists", Sample.server).
Proof.
  apply (registerEmployer_duplicate "salt" _ Sample.server Sample.acme Sample.acme_account);
    vm_compute; reflexivity.
Defined.

Lemma sample_unique_emails : unique_emails Sample.server.
Proof.
  intros id1 id2 e1 e2 H1 H2 _.
  destruct (sample_employers _ _ H1) as [-> _].
  by destruct (sample_employers _ _ H2) as [-> _].
Qed.

Lemma registerEmployer_unique_emails_witness :
  unique_emails
    (registerEmployer "salt" (Sample2.signup "Globex" "hr@globex.com" "hunter22")
       Sample.server).2.
Proof. apply registerEmployer_unique_emails, sample_unique_emails. Defined.

Lemma register_then_login_witness :
  let req := Sample2.signup "Globex" "hr@globex.com" "hunter22" in
  let st' := (registerEmployer "salt" req Sample.server).2 in
  status (login (Sample.credentials "hr@globex.com" "hunter22") st').1 = 200.
Proof.
  intros req st'.
  destruct (register_then_login "salt" req Sample.server) as [_ Hlogin].
  { vm_compute. reflexivity. }
  { intros id e Hin. destruct (sample_employers _ _ Hin) as [_ ->]. discriminate. }
  subst st'. change (Sample.credentials "hr@globex.com" "hunter22")
    with {| body_email := register_email req; body_password := register_password req |}.
  by rewrite Hlogin.
Defined.

Lemma delete_then_get_witness :
  let st' := (deleteJob Sample.acme_token Sample.engineer Sample.server).2 in
  status (getJob Sample.engineer st').1 = 404
  ∧ status (deleteJob Sample.acme_token Sample.engineer st').1 = 404.
Proof.
  intros st'.
  assert (Hs : status (deleteJob Sample.acme_token Sample.engineer Sample.server).1 = 200)
    by (vm_compute; reflexivity).
  destruct (delete_then_get Sample.acme_token Sample.engineer Sample.server Hs)
    as [Hget Hagain].
  subst st'. by rewrite Hget, Hagain.
Defined.

Lemma createJob_handler_stores_witness :
  let user := {| user_id := Sample.acme; user_email := "employer@example.com" |} in
  ∃ _id job,
    (createJob_handler (Some user) Sample.new_posting Sample.server).1
      = {| status := 201; json := JJob _id job |}
    ∧ jobs Sample.server !! _id = None
    ∧ employerId job = Sample.acme
    ∧ title job = "QA Engineer"
    ∧ salaryRange job = {| salaryMin := Some 40000%Z; salaryMax := Some 65000%Z |}.
Proof.
  intros user.
  destruct (createJob_handler_stores user Sample.new_posting Sample.server)
    as (_id & job & Hrun & Hnew & Howner & Htitle & _ & _ & Hmin & Hmax & _);
    [vm_compute; reflexivity | discriminate |].
  exists _id, job. split; [by rewrite Hrun|]. split; [exact Hnew|].
  split; [exact Howner|]. split; [by injection Htitle|].
  destruct (salaryRange job) as [lo hi]. cbn [salaryMin salaryMax] in Hmin, Hmax.
  rewrite Hmin, Hmax. vm_compute. reflexivity.
Defined.

Lemma sample_jobs_valid : jobs_valid Sample.server.
Proof.
  intros id j Hin. by destruct (sample_jobs _ _ Hin) as [[_ ->]|[_ ->]].
Qed.

Lemma jobs_schema_invariant_witness :
  jobs_valid (updateJob Sample.acme_token Sample.engineer Sample.raise_min Sample.server).2
  ∧ jobs_valid (deleteJob Sample.acme_token Sample.engineer Sample.server).2.
Proof.
  destruct (jobs_schema_invariant Sample.acme_token None Sample.engineer
              Sample.raise_min Sample.server sample_jobs_valid) as (Hupdate & Hdelete & _).
  split; [exact Hupdate | exact Hdelete].
Defined.

Lemma searchJobs_outcomes_witness :
  let q := {| query_title := None; query_location := Some "";
              query_minSalary := None; query_maxSalary := None |} in
  ∃ found,
    (searchJobs q Sample.server).1 = {| status := 200; json := JJobs found |}
    ∧ (Sample.engineer, Sample.engineer_job) ∈ found
    ∧ (Sample.analyst, Sample.analyst_job) ∈ found
    ∧ status (searchJobs (Sample.max_salary "plenty") Sample.server).1 = 400.
Proof.
  intros q.
  destruct (searchJobs_outcomes q Sample.server) as (_ & _ & Hall).
  destruct (searchJobs_outcomes (Sample.max_salary "plenty") Sample.server)
    as (_ & H400 & _).
  destruct Hall as (found & Hrun & _ & Hiff); try reflexivity.
  exists found. split; [exact Hrun|].
  split; [apply Hiff; reflexivity|]. split; [apply Hiff; reflexivity|].
  apply H400. vm_compute. discriminate.
Defined.

Lemma submitApplication_frame_witness :
  let st' := (submitApplication 7 (Sample.apply_to Sample.engineer)
                Sample2.with_application).2 in
  jobs st' = jobs Sample2.with_application
  ∧ (candidateName <$> applications st' !! "65f0000000000000000000b1") = Some "Jane Doe".
Proof.
  intros st'.
  destruct (submitApplication_frame 7 (Sample.apply_to Sample.engineer)
              Sample2.with_application) as (Hjobs & _ & _ & Hkept & _).
  split; [exact Hjobs|]. subst st'.
  erewrite Hkept; [|reflexivity]. reflexivity.
Defined.

Lemma sample_references : applications_reference_jobs Sample2.with_application.
Proof.
  intros id a. unfold Sample2.with_application, Sample.server.
  cbn [applications set_applications jobs].
  intros [[_ <-]|[_ Hin]]%lookup_insert_Some; [|by rewrite lookup_empty in Hin].
  cbn [jobId]. rewrite lookup_insert_eq. eauto.
Qed.

Lemma submitApplication_referential_witness :
  applications_reference_jobs
    (submitApplication 7 (Sample.apply_to Sample.analyst) Sample2.with_application).2.
Proof. apply submitApplication_referential, sample_references. Defined.

Lemma register_then_notify_witness :
  let req := Sample.apply_to Sample.engineer in
  let registered := on_register "sock-9" (Sample.claim Sample.acme) Sample2.offline in
  status (submitApplication 7 req registered).1 = 201
  ∧ dispatched (io (submitApplication 7 req registered).2)
    = [notification (Some "sock-9") req].
Proof.
  intros req registered.
  apply (register_then_notify 7 req Sample2.offline Sample.engineer_job "sock-9"
           Sample.acme); try (vm_compute; reflexivity).
  discriminate.
Defined.

Lemma disconnect_then_silent_witness :
  let req := Sample.apply_to Sample.engineer in
  let result := submitApplication 7 req (on_disconnect "sock-1" Sample.server) in
  status result.1 = 201 ∧ dispatched (io result.2) = [].
Proof.
  intros req result.
  destruct (disconnect_then_silent 7 req Sample.server Sample.engineer_job "sock-1"
              Sample.acme) as (_ & H201 & _ & Hsilent);
    try (vm_compute; reflexivity).
  { apply NoDup_singleton. }
  { intros k. unfold Sample.server. cbn [employerSockets Js.get].
    destruct (decide (Sample.acme = k)); [done | discriminate]. }
  split; [exact H201 | exact Hsilent].
Defined.

Lemma registry_keys_invariant_witness :
  let evs := [Register "sock-1" (Sample.claim "10");
              Register "sock-1" (Sample.claim "9");
              Disconnect "sock-1";
              Register "sock-2" (Sample.claim "10")] in
  NoDup (Js.keys (employerSockets (run_events evs Sample2.offline)))
  ∧ employerSockets (run_events evs Sample2.offline) = [("10", "sock-2")].
Proof.
  intros evs.
  destruct (registry_keys_invariant evs Sample2.offline) as [Hnd _];
    [apply NoDup_nil_2|].
  split; [exact Hnd | vm_compute; reflexivity].
Defined.

Lemma on_disconnect_other_socket_witness :
  Js.get Sample.acme (employerSockets (on_disconnect "sock-1" Sample.shared_socket))
  = Some "sock-2".
Proof.
  apply on_disconnect_other_socket; [|vm_compute; reflexivity|discriminate].
  do 3 apply on_register_keys. apply NoDup_nil_2.
Defined.

Lemma register_disconnect_roundtrip_witness :
  on_disconnect "sock-9" (on_register "sock-9" (Sample.claim "42") Sample.server)
  = Sample.server.
Proof.
  destruct (register_disconnect_roundtrip "sock-9" "42" Sample.server)
    as (_ & _ & Hback).
  - discriminate.
  - intros k v Hin. unfold Sample.server in Hin. cbn [employerSockets] in Hin.
    apply list_elem_of_singleton in Hin. injection Hin as -> ->. discriminate.
  - apply Hback. reflexivity.
Defined.

End MoreRuns.
(** * The routes on requests as they arrive *)

(** ** Validation chains *)

Section Chains.
Context {P : Platform}.

Lemma checks_nil name (test : string → bool) m (vs : list string) :
  (vs ≫= λ v, check name (test v) m) = [] ↔ ∀ v, v ∈ vs → test v = true.
Proof.
  induction vs as [|v vs IH].
  - split; [intros _ v Hv; by apply elem_of_nil in Hv | done].
  - rewrite bind_cons, app_nil, check_nil, IH. split.
    + intros [Hv Hall] w [->|Hw]%elem_of_cons; auto.
    + intros Hall. split; [apply Hall; left | intros w Hw; apply Hall; by right].
Qed.

Lemma checks_param name' name (test : string → bool) m (vs : list string) :
  name' ∈ param <$> (vs ≫= λ v, check name (test v) m) ↔
    name' = name ∧ ∃ v, v ∈ vs ∧ test v = false.
Proof.
  induction vs as [|v vs IH].
  - simpl. rewrite elem_of_nil. split; [done|]. intros [_ (v & Hv & _)].
    by apply elem_of_nil in Hv.
  - rewrite bind_cons, fmap_app, elem_of_app, IH. unfold check.
    destruct (test v) eqn:Hv; simpl.
    + rewrite elem_of_nil. split.
      * intros [[]|[-> (w & Hw & Hf)]]. split; [done|]. exists w. split; [by right|done].
      * intros [-> (w & [->|Hw]%elem_of_cons & Hf)]; [congruence|].
        right. split; [done|]. by exists w.
    + rewrite list_elem_of_singleton. split.
      * intros [->|[-> _]]; (split; [done|]); exists v; split; [left|done|left|done].
      * intros [-> _]. by left.
Qed.

Lemma check_field_nil name f test m :
  check_field name f test m = [] ↔ ∀ v, v ∈ validated f → test v = true.
Proof. apply checks_nil. Qed.

Lemma check_field_optional_nil name f test m :
  check_field_optional name f test m = [] ↔ ∀ v, v ∈ instances f → test v = true.
Proof. apply checks_nil. Qed.

(** A string field of the body alone is tested as the earlier handlers
    test it. *)
Lemma check_field_body_only name v test m :
  check_field name (body_only v) test m = check name (test (Js.toStr v)) m.
Proof. destruct v; unfold check_field; simpl; by rewrite app_nil_r. Qed.

Lemma check_param name' name ok m :
  name' ∈ param <$> check name ok m ↔ name' = name ∧ ok = false.
Proof.
  unfold check. destruct ok; simpl.
  - rewrite elem_of_nil. split; [done | by intros [_ ?]].
  - rewrite list_elem_of_singleton. split; [done | by intros [? _]].
Qed.

End Chains.

(** ** Applications *)

Section ApplyRoute.
Context {P : Platform} {M : Mongoose}.

Lemma apply_route_validation_nil s :
  apply_route_validation s = [] ↔
    isMongoId (params_jobId (submitted s)) = true
    ∧ (∀ v, v ∈ validated (candidateName_field s) → notEmpty v = true)
    ∧ (∀ v, v ∈ validated (candidateEmail_field s) → isEmail v = true).
Proof.
  unfold apply_route_validation.
  rewrite !app_nil, check_nil, !check_field_nil. tauto.
Qed.

Lemma apply_route_invalid now s st :
  apply_route_validation s ≠ [] →
  apply_route now s st =
    ({| status := 400; json := JErrors (apply_route_validation s) |}, st).
Proof.
  intros Hv. unfold apply_route.
  destruct (apply_route_validation s); [done | reflexivity].
Qed.

(** What the handler does with a submission that has passed validation. *)
Lemma apply_route_run now s st :
  apply_route_validation s = [] →
  apply_route now s st =
    match castObjectId (params_jobId (submitted s)) with
    | None => (mkError 500 "Internal Server Error", st)
    | Some job_id =>
        match jobs st !! job_id with
        | None => (mkError 404 "Job not found", st)
        | Some job =>
            let _id := newObjectId (dom (applications st)) in
            let application :=
              {| candidateName := Js.toStr (body_candidateName (submitted s));
                 candidateEmail := Js.toStr (body_candidateEmail (submitted s));
                 jobId := job_id;
                 applicationDate := now |} in
            if ApplicationSchema_valid application
            then ({| status := 201; json := JApplication _id application |},
                  set_io (λ io,
                    {| emitted := emitted io ++
                         [{| room := Js.get (employerId job) (employerSockets st);
                             event := "newApplication";
                             payload_jobId := job_id;
                             payload_candidateName := candidateName application;
                             payload_candidateEmail := candidateEmail application |}] |})
                    (set_applications (insert _id application) st))
            else (mkError 500 "Internal Server Error", st)
        end
    end.
Proof.
  intros Hv. unfold apply_route. rewrite Hv.
  unfold try_catch, bind, Job_findById_cast.
  destruct (castObjectId (params_jobId (submitted s))) as [job_id|]; [|reflexivity].
  unfold gets. destruct (jobs st !! job_id) as [job|]; [|reflexivity].
  cbn [fmap option_fmap option_map]. unfold Application_save.
  cbv zeta.
  destruct (ApplicationSchema_valid _); [|reflexivity].
  unfold bind, gets.
  assert (Hfresh : applications st !! newObjectId (dom (applications st)) = None).
  { apply not_elem_of_dom, newObjectId_fresh. }
  rewrite Hfresh. reflexivity.
Qed.

(** On a submission of the first part, with an identifier that the store
    spells the same way, the route is the handler of the first part. *)
Lemma apply_route_plain now req st :
  castObjectId (params_jobId req) = Some (params_jobId req) →
  apply_route now (plain_submission req) st = submitApplication now req st.
Proof.
  intros Hcast.
  assert (Hsame : apply_route_validation (plain_submission req) = apply_validation req).
  { unfold apply_route_validation, apply_validation.
    change (candidateName_field (plain_submission req))
      with (body_only (body_candidateName req)).
    change (candidateEmail_field (plain_submission req))
      with (body_only (body_candidateEmail req)).
    by rewrite !check_field_body_only. }
  unfold apply_route, submitApplication. rewrite Hsame.
  destruct (apply_validation req); [|reflexivity].
  unfold try_catch, bind, Job_findById_cast, Job_findById.
  cbn [submitted plain_submission]. rewrite Hcast. unfold gets.
  destruct (jobs st !! params_jobId req); reflexivity.
Qed.


(** X17.  A submission is answered 400 exactly when one of the three
    checks fails, and then nothing has been looked up or stored.  The
    answer names the [jobId] when it is not a well-formed identifier; the
    [candidateName] when a location of the request has it empty, or none
    has it; the [candidateEmail] when a location has it with no valid
    address, or none has it. *)
Theorem apply_route_checks now s st :
  (status (apply_route now s st).1 = 400 ↔ apply_route_validation s ≠ [])
  ∧ (apply_route_validation s ≠ [] →
       apply_route now s st =
         ({| status := 400; json := JErrors (apply_route_validation s) |}, st))
  ∧ ("jobId" ∈ param <$> apply_route_validation s ↔
       isMongoId (params_jobId (submitted s)) = false)
  ∧ ("candidateName" ∈ param <$> apply_route_validation s ↔
       "" ∈ validated (candidateName_field s))
  ∧ ("candidateEmail" ∈ param <$> apply_route_validation s ↔
       ∃ v, v ∈ validated (candidateEmail_field s) ∧ isEmail v = false).
Proof.
  split; [|split; [apply apply_route_invalid|]].
  - destruct (decide (apply_route_validation s = [])) as [Hv|Hv].
    + split; [|done]. intros Hs. exfalso. rewrite apply_route_run in Hs by done.
      destruct (castObjectId _); [|discriminate].
      destruct (jobs st !! _); [|discriminate].
      cbv zeta in Hs. destruct (ApplicationSchema_valid _); discriminate.
    + by rewrite apply_route_invalid.
  - unfold apply_route_validation, check_field.
    rewrite !fmap_app, !elem_of_app, !check_param, !checks_param.
    split; [|split].
    + split; [intros [[_ ?]|[[? _]|[? _]]]; done | intros ?; left; done].
    + split.
      * intros [[? _]|[[_ (v & Hv & Hempty)]|[? _]]]; try done.
        apply negb_false_iff, String.eqb_eq in Hempty. by subst v.
      * intros Hin. right. left. split; [done|]. by exists "".
    + split.
      * intros [[? _]|[[? _]|[_ ?]]]; done.
      * intros ?. right. by right.
Qed.

End ApplyRoute.

(** ** Login *)

Section LoginRoute.
Context {P : Platform} {M : Mongoose}.

Lemma login_route_validation_nil c :
  login_route_validation c = [] ↔
    (∀ v, v ∈ validated (email_field c) → isEmail v = true)
    ∧ (∀ v, v ∈ validated (password_field c) → notEmpty v = true).
Proof.
  unfold login_route_validation. rewrite app_nil, !check_field_nil. tauto.
Qed.

Lemma login_route_invalid c st :
  login_route_validation c ≠ [] →
  login_route c st =
    ({| status := 400; json := JErrors (login_route_validation c) |}, st).
Proof.
  intros Hv. unfold login_route.
  destruct (login_route_validation c); [done | reflexivity].
Qed.

(** The lookup answers with an employer or with none, and changes nothing. *)
Lemma Employer_findOne_by_next e st :
  ∃ found, Employer_findOne_by e st = (Next found, st).
Proof.
  unfold Employer_findOne_by, Employer_findOne, gets, ret.
  destruct e as [[]|]; [eauto ..|]. destruct undefinedMatchesAll; eauto.
Qed.

(** The employer found is a stored one, and has the email of the body when
    the body has one. *)
Lemma Employer_findOne_by_Some e st id employer :
  Employer_findOne_by e st = (Next (Some (id, employer)), st) →
  employers st !! id = Some employer
  ∧ ∀ v, e = Some v → email employer = stringOf v.
Proof.
  unfold Employer_findOne_by. intros Hfound.
  destruct e as [v|].
  - assert (Hin : employers st !! id = Some employer ∧ email employer = stringOf v).
    { destruct v; try discriminate;
        apply (f_equal fst) in Hfound; cbn [fst] in Hfound;
        by apply Employer_findOne_Some in Hfound. }
    destruct Hin as [Hin Hmail]. split; [done|]. by intros ? [= <-].
  - split; [|done]. destruct undefinedMatchesAll; [|discriminate].
    unfold gets in Hfound.
    destruct (map_to_list (employers st)) as [|[id' employer'] rest] eqn:Hlist;
      [discriminate|].
    cbn [head] in Hfound. injection Hfound as -> ->.
    apply elem_of_map_to_list. rewrite Hlist. by left.
Qed.

Lemma Employer_findOne_by_None e st :
  (∀ id employer, employers st !! id = Some employer → email employer ≠ e) →
  Employer_findOne_by (Some (SString e)) st = (Next None, st).
Proof.
  intros Hnone. apply Employer_findOne_None in Hnone.
  unfold Employer_findOne_by. cbn [stringOf].
  unfold Employer_findOne, gets in *. cbn [fst] in Hnone. by rewrite Hnone.
Qed.

Lemma Employer_findOne_by_known e st id employer :
  employers st !! id = Some employer →
  email employer = e →
  ∃ id' employer',
    Employer_findOne_by (Some (SString e)) st = (Next (Some (id', employer')), st).
Proof.
  intros Hin Hmail.
  destruct (Employer_findOne_by_next (Some (SString e)) st) as [[[id' employer']|] Hrun];
    [by eauto|].
  exfalso. unfold Employer_findOne_by in Hrun. cbn [stringOf] in Hrun.
  apply (f_equal fst) in Hrun. cbn [fst] in Hrun.
  exact (proj1 (Employer_findOne_None e st) Hrun id employer Hin Hmail).
Qed.

(** What the handler does with credentials that have passed validation. *)
Lemma login_route_run c st found :
  login_route_validation c = [] →
  Employer_findOne_by (in_body (email_field c)) st = (Next found, st) →
  login_route c st =
    (match found with
     | None => mkError 401 "Invalid email or password"
     | Some (_id, employer) =>
         match in_body (password_field c) with
         | Some (SString plain) =>
             if bcrypt_compare plain (password employer)
             then {| status := 200;
                     json := JToken (jwt_sign {| user_id := _id;
                                                 user_email := email employer |}) |}
             else mkError 401 "Invalid email or password"
         | _ => mkError 500 "Internal Server Error"
         end
     end, st).
Proof.
  intros Hv Hfound. unfold login_route. rewrite Hv.
  unfold try_catch, bind. rewrite Hfound.
  destruct found as [[_id employer]|]; [|reflexivity].
  unfold bcrypt_compare_data.
  destruct (in_body (password_field c)) as [[plain| | |]|]; try reflexivity.
  unfold ret. by destruct (bcrypt_compare plain (password employer)).
Qed.

(** On credentials of the first part the route is the handler of the
    first part. *)
Lemma login_route_plain req st :
  login_route (plain_credentials req) st = login req st.
Proof.
  assert (Hsame : login_route_validation (plain_credentials req) = login_validation req).
  { unfold login_route_validation, login_validation. cbn [plain_credentials
      email_field password_field]. by rewrite !check_field_body_only. }
  unfold login_route, login. rewrite Hsame.
  destruct (login_validation req) eqn:Hv; [|reflexivity].
  apply login_validation_nil in Hv as [Hmail Hpw].
  unfold try_catch, bind. cbn [plain_credentials email_field password_field body_only
    in_body].
  destruct (body_email req) as [e|]; [|by rewrite isEmail_empty in Hmail].
  destruct (body_password req) as [p|]; [|done].
  cbn [fmap option_fmap option_map Employer_findOne_by stringOf Js.toStr default].
  unfold Employer_findOne, gets.
  destruct (snd <$> list_find _ _) as [[_id employer]|]; [|reflexivity].
  cbn [bcrypt_compare_data]. unfold ret. change (id p) with p.
  by destruct (bcrypt_compare p (password employer)).
Qed.

(** C7.  The route does not keep what the claim says.  Take two login
    requests that pass input validation and carry the same password, which
    is not a string in the body (a JSON number, say, or a password given in
    the query string only): the one whose email is registered is answered
    500, because [bcrypt.compare] throws, and the one whose email no
    employer has is answered 401.  The two answers differ, so the caller
    learns which emails are registered. *)
Theorem login_route_reveals_email c c' st id employer e e' :
  login_route_validation c = [] →
  login_route_validation c' = [] →
  in_body (email_field c) = Some (SString e) →
  in_body (email_field c') = Some (SString e') →
  password_field c' = password_field c →
  (∀ plain, in_body (password_field c) ≠ Some (SString plain)) →
  employers st !! id = Some employer →
  email employer = e →
  (∀ id' employer', employers st !! id' = Some employer' → email employer' ≠ e') →
  login_route c st = (mkError 500 "Internal Server Error", st)
  ∧ login_route c' st = (mkError 401 "Invalid email or password", st)
  ∧ status (login_route c st).1 ≠ status (login_route c' st).1.
Proof.
  intros Hv Hv' Hmail Hmail' Hsame Hpw Hin Hknown Hunknown.
  destruct (Employer_findOne_by_known e st id employer Hin Hknown)
    as (id1 & employer1 & Hfound).
  assert (Hrun : login_route c st = (mkError 500 "Internal Server Error", st)).
  { rewrite (login_route_run c st (Some (id1, employer1))) by (by rewrite ?Hmail).
    destruct (in_body (password_field c)) as [[plain| | |]|] eqn:Hp; try done.
    by destruct (Hpw plain). }
  assert (Hrun' : login_route c' st = (mkError 401 "Invalid email or password", st)).
  { rewrite (login_route_run c' st None); [done|done|].
    rewrite Hmail'. by apply Employer_findOne_by_None. }
  split; [done|]. split; [done|]. by rewrite Hrun, Hrun'.
Qed.

(** X4.  Login never changes the state.  It answers 400 exactly when
    validation fails, and otherwise 200, 401 or 500.  A 200 carries the
    token of a stored employer whose stored hash matches the password,
    which the body has as a string, and who has the email of the body when
    the body has one.  A 500 goes to a request for which an employer was
    found and whose password is not a string in the body. *)
Theorem login_route_outcomes c st :
  (login_route c st).2 = st
  ∧ (status (login_route c st).1 = 400 ↔ login_route_validation c ≠ [])
  ∧ (status (login_route c st).1 = 400 ∨ status (login_route c st).1 = 401
     ∨ status (login_route c st).1 = 200 ∨ status (login_route c st).1 = 500)
  ∧ (status (login_route c st).1 = 200 →
       ∃ id employer plain,
         employers st !! id = Some employer
         ∧ (∀ v, in_body (email_field c) = Some v → email employer = stringOf v)
         ∧ in_body (password_field c) = Some (SString plain)
         ∧ bcrypt_compare plain (password employer) = true
         ∧ json (login_route c st).1 =
             JToken (jwt_sign {| user_id := id; user_email := email employer |}))
  ∧ (status (login_route c st).1 = 500 →
       (∃ id employer,
          employers st !! id = Some employer
          ∧ ∀ v, in_body (email_field c) = Some v → email employer = stringOf v)
       ∧ ∀ plain, in_body (password_field c) ≠ Some (SString plain)).
Proof.
  destruct (decide (login_route_validation c = [])) as [Hv|Hv].
  - destruct (Employer_findOne_by_next (in_body (email_field c)) st) as [found Hfound].
    rewrite (login_route_run c st found) by done. cbn [fst snd].
    split; [done|].
    destruct found as [[id employer]|].
    + apply Employer_findOne_by_Some in Hfound as (Hin & Hmail).
      destruct (in_body (password_field c)) as [[plain| | |]|] eqn:Hp.
      * destruct (bcrypt_compare plain (password employer)) eqn:Hpw; cbn [status mkError].
        -- split; [split; [discriminate|done]|]. split; [auto|].
           split; [|discriminate]. intros _. by exists id, employer, plain.
        -- split; [split; [discriminate|done]|]. split; [auto|].
           split; discriminate.
      * cbn [status mkError]. split; [split; [discriminate|done]|]. split; [auto|].
        split; [discriminate|]. intros _. split; [by exists id, employer | done].
      * cbn [status mkError]. split; [split; [discriminate|done]|]. split; [auto|].
        split; [discriminate|]. intros _. split; [by exists id, employer | done].
      * cbn [status mkError]. split; [split; [discriminate|done]|]. split; [auto|].
        split; [discriminate|]. intros _. split; [by exists id, employer | done].
      * cbn [status mkError]. split; [split; [discriminate|done]|]. split; [auto|].
        split; [discriminate|]. intros _. split; [by exists id, employer | done].
    + cbn [status mkError]. split; [split; [discriminate|done]|]. split; [auto|].
      split; discriminate.
  - rewrite login_route_invalid by done. cbn [fst snd status].
    split; [done|]. split; [done|]. split; [auto|]. split; discriminate.
Qed.

End LoginRoute.

(** ** Job documents *)

Section JobRoutes.
Context {P : Platform} {M : Mongoose} {C : ChangeTracking}.

Lemma Job_document_Some db _id job stamps :
  Job_document db _id = Some (job, stamps) ↔
    jobs (server db) !! _id = Some job ∧ jobTimestamps db !! _id = Some stamps.
Proof.
  unfold Job_document.
  destruct (jobs (server db) !! _id) as [job'|]; cbn [mbind option_bind];
    [|split; [done | by intros [? _]]].
  destruct (jobTimestamps db !! _id) as [stamps'|]; cbn [mbind option_bind];
    [|split; [done | by intros [_ ?]]].
  split; [by intros [= -> ->] | by intros [[= ->] [= ->]]].
Qed.

Lemma update_route_validation_id id b :
  update_route_validation id b = [] → isMongoId id = true.
Proof.
  unfold update_route_validation. rewrite !app_nil, check_nil. tauto.
Qed.

(** A falsy value keeps the stored string. *)
Lemma assigned_kept f d : supplied f = false → assigned f d = d.
Proof.
  unfold supplied, assigned. destruct (in_body f) as [v|]; [|done].
  simpl. by intros ->.
Qed.

(** What the handler does for the owner of a stored job, once the request
    has passed authentication and validation. *)
Lemma update_route_run now auth user id b db _id job stamps :
  authenticateJWT auth = inr user →
  update_route_validation id b = [] →
  castObjectId id = Some _id →
  Job_document db _id = Some (job, stamps) →
  employerId job = user_id user →
  update_route now auth id b db =
    let job' := assign b job in
    let stamps' := if isModified job b then touch now stamps else stamps in
    match invalidated b with
    | Some v => (mkError 500 (message (ObjectExpected v)), db)
    | None =>
        if JobSchema_valid job'
        then ({| status := 200; json := JDocument _id job' stamps' |},
              {| server := set_jobs (insert _id job') (server db);
                 jobTimestamps := <[_id := stamps']> (jobTimestamps db) |})
        else (mkError 500 (validationMessage job'), db)
    end.
Proof.
  intros Hauth Hv Hcast Hdoc Howner. unfold update_route.
  rewrite Hauth, Hv, Hcast, Hdoc.
  by rewrite (proj2 (String.eqb_eq _ _) Howner).
Qed.

(** What an update that is answered 200 went through. *)
Lemma update_route_200 now auth id b db :
  status (update_route now auth id b db).1 = 200 →
  ∃ user _id job stamps,
    authenticateJWT auth = inr user
    ∧ update_route_validation id b = []
    ∧ castObjectId id = Some _id
    ∧ Job_document db _id = Some (job, stamps)
    ∧ employerId job = user_id user
    ∧ invalidated b = None
    ∧ JobSchema_valid (assign b job) = true.
Proof.
  unfold update_route.
  destruct (authenticateJWT auth) as [denied|user] eqn:Hauth.
  { intros Hs. apply authenticateJWT_denied in Hauth as [H1|H1];
      cbn [fst] in Hs; congruence. }
  destruct (update_route_validation id b) eqn:Hv; [|discriminate].
  destruct (castObjectId id) as [_id|] eqn:Hcast; [|discriminate].
  destruct (Job_document db _id) as [[job stamps]|] eqn:Hdoc; [|discriminate].
  destruct (String.eqb_spec (employerId job) (user_id user)) as [Howner|];
    [|discriminate].
  cbn [negb]. destruct (invalidated b) eqn:Hinv; [discriminate|].
  destruct (JobSchema_valid (assign b job)) eqn:Hvalid; [|discriminate].
  intros _. by exists user, _id, job, stamps.
Qed.

(** C9, as amended.  An update with a valid token by the owner of a stored
    job leaves the job stored under the same identifier with the same
    [employerId] and the same [createdAt].  A field among [title],
    [description], [location] that is absent from the body or falsy there
    (the JSON values [0] and [false] pass validation) keeps its stored
    value, and so does [salaryRange] unless the body has an object for it.
    [updatedAt] is the one field that changes without being in the body:
    it keeps its value or becomes the time of the update, and it does become
    the time of the update whenever the update changes the job.  No other
    job is touched, no job is added or removed, and an update that is not
    answered 200 changes nothing at all. *)
Theorem update_route_frame now auth user id b db _id job stamps :
  authenticateJWT auth = inr user →
  castObjectId id = Some _id →
  Job_document db _id = Some (job, stamps) →
  employerId job = user_id user →
  let result := update_route now auth id b db in
  (∃ job' stamps',
     Job_document result.2 _id = Some (job', stamps')
     ∧ employerId job' = employerId job
     ∧ createdAt stamps' = createdAt stamps
     ∧ (supplied (title_field b) = false → title job' = title job)
     ∧ (supplied (description_field b) = false → description job' = description job)
     ∧ (supplied (location_field b) = false → location job' = location job)
     ∧ ((∀ r, salaryRange_body b ≠ Some (RangeObject r)) →
          salaryRange job' = salaryRange job)
     ∧ (updatedAt stamps' = updatedAt stamps ∨ updatedAt stamps' = now)
     ∧ (job' ≠ job → updatedAt stamps' = now)
     ∧ (status result.1 ≠ 200 → job' = job ∧ stamps' = stamps))
  ∧ (∀ id', id' ≠ _id → Job_document result.2 id' = Job_document db id')
  ∧ dom (jobs (server result.2)) = dom (jobs (server db))
  ∧ employers (server result.2) = employers (server db)
  ∧ applications (server result.2) = applications (server db)
  ∧ (status result.1 ≠ 200 → result.2 = db).
Proof.
  intros Hauth Hcast Hdoc Howner result.
  assert (Hsame : result.2 = db →
    (∃ job' stamps',
       Job_document result.2 _id = Some (job', stamps')
       ∧ employerId job' = employerId job
       ∧ createdAt stamps' = createdAt stamps
       ∧ (supplied (title_field b) = false → title job' = title job)
       ∧ (supplied (description_field b) = false → description job' = description job)
       ∧ (supplied (location_field b) = false → location job' = location job)
       ∧ ((∀ r, salaryRange_body b ≠ Some (RangeObject r)) →
            salaryRange job' = salaryRange job)
       ∧ (updatedAt stamps' = updatedAt stamps ∨ updatedAt stamps' = now)
       ∧ (job' ≠ job → updatedAt stamps' = now)
       ∧ (status result.1 ≠ 200 → job' = job ∧ stamps' = stamps))
    ∧ (∀ id', id' ≠ _id → Job_document result.2 id' = Job_document db id')
    ∧ dom (jobs (server result.2)) = dom (jobs (server db))
    ∧ employers (server result.2) = employers (server db)
    ∧ applications (server result.2) = applications (server db)
    ∧ (status result.1 ≠ 200 → result.2 = db)).
  { intros ->. split; [|done]. exists job, stamps. rewrite Hdoc.
    do 7 (split; [done|]). split; [by left|]. done. }
  subst result.
  destruct (decide (update_route_validation id b = [])) as [Hv|Hv].
  2:{ apply Hsame. unfold update_route. rewrite Hauth.
      by destruct (update_route_validation id b). }
  revert Hsame. rewrite (update_route_run now auth user id b db _id job stamps) by done.
  cbv zeta. destruct (invalidated b) as [v|] eqn:Hinv; [by intros Hsame; apply Hsame|].
  destruct (JobSchema_valid (assign b job)) eqn:Hvalid;
    [intros _ | by intros Hsame; apply Hsame].
  apply Job_document_Some in Hdoc as [Hjob Hstamps].
  cbn [fst snd status server jobTimestamps jobs set_jobs employers applications].
  split; [|split; [|split; [|done]]].
  - exists (assign b job), (if isModified job b then touch now stamps else stamps).
    split.
    { apply Job_document_Some. cbn [server jobTimestamps jobs set_jobs].
      by rewrite !lookup_insert_eq. }
    split; [done|].
    split; [by destruct (isModified job b)|].
    unfold assign. cbn [title description location salaryRange].
    split; [apply assigned_kept|]. split; [apply assigned_kept|].
    split; [apply assigned_kept|].
    split.
    { intros Hnone. destruct (salaryRange_body b) as [[v|r]|]; [done| |done].
      by destruct (Hnone r). }
    split; [destruct (isModified job b); cbn; auto|].
    split; [|done].
    intros Hne. by rewrite (isModified_changed job b Hne).
  - intros id' Hne. unfold Job_document.
    cbn [server jobTimestamps jobs set_jobs]. by rewrite !lookup_insert_ne.
  - apply dom_insert_lookup_L. by rewrite Hjob.
Qed.

(** X9.  After an update that is answered 200, reading the job by the
    same identifier is answered 200 with the [_id], [title], [description],
    [location], [salaryRange], [employerId] and [createdAt] of the document
    that the update returned; that document satisfies the schema. *)
Theorem update_then_get_route now auth id b db :
  status (update_route now auth id b db).1 = 200 →
  let updated := update_route now auth id b db in
  ∃ _id job stamps,
    json updated.1 = JDocument _id job stamps
    ∧ get_route id updated.2 =
        ({| status := 200; json := JSelection _id job (createdAt stamps) |}, updated.2)
    ∧ JobSchema_valid job = true.
Proof.
  intros Hs updated. subst updated.
  destruct (update_route_200 _ _ _ _ _ Hs)
    as (user & _id & job & stamps & Hauth & Hv & Hcast & Hdoc & Howner & Hinv & Hvalid).
  rewrite (update_route_run now auth user id b db _id job stamps) by done.
  cbv zeta. rewrite Hinv, Hvalid. cbn [fst snd json].
  eexists _, _, _. split; [reflexivity|]. split; [|done].
  unfold get_route. rewrite (update_route_validation_id _ _ Hv), Hcast. cbn [check].
  unfold Job_document. cbn [server jobTimestamps jobs set_jobs].
  by rewrite !lookup_insert_eq.
Qed.

(** X11.  Whatever its answer, a delete request touches nothing but the
    job that its identifier names once the store has read it: the other
    jobs, the employers, the presence registry and the emitted events are
    as before, and so are the applications, those made for the deleted job
    included. *)
Theorem delete_route_frame auth id db :
  let db' := (delete_route auth id db).2 in
  (∀ id', castObjectId id ≠ Some id' → Job_document db' id' = Job_document db id')
  ∧ applications (server db') = applications (server db)
  ∧ employers (server db') = employers (server db)
  ∧ employerSockets (server db') = employerSockets (server db)
  ∧ io (server db') = io (server db).
Proof.
  intros db'. subst db'. unfold delete_route.
  destruct (authenticateJWT auth) as [denied|user]; [done|].
  destruct (check "id" (isMongoId id) "Invalid job ID"); [|done].
  destruct (castObjectId id) as [_id|]; [|done].
  destruct (Job_document db _id) as [[job stamps]|]; [|done].
  destruct (negb _); [done|]. cbn [snd server jobTimestamps].
  split; [|done]. intros id' Hne. unfold Job_document.
  cbn [server jobTimestamps jobs set_jobs].
  rewrite !lookup_delete_ne; [done|congruence|congruence].
Qed.

(** X12.  With a valid token and a well-formed identifier that names no
    stored job, a delete and an update with a valid body change nothing;
    they are answered 404 when the store can read the identifier and 500
    when it cannot. *)
Theorem mutation_routes_not_found now auth user id b db :
  authenticateJWT auth = inr user →
  isMongoId id = true →
  (∀ _id, castObjectId id = Some _id → Job_document db _id = None) →
  (is_Some (castObjectId id) →
     delete_route auth id db = (mkError 404 "Job not found.", db)
     ∧ (update_route_validation id b = [] →
          update_route now auth id b db = (mkError 404 "Job not found", db)))
  ∧ (castObjectId id = None →
       delete_route auth id db = (mkError 500 "Server error, could not delete job.", db)
       ∧ (update_route_validation id b = [] →
            update_route now auth id b db = (mkError 500 (message (CastError id)), db))).
Proof.
  intros Hauth Hid Hnone. unfold delete_route, update_route.
  rewrite Hauth, Hid. cbn [check]. split.
  - intros [_id Hcast]. rewrite Hcast, (Hnone _id Hcast).
    split; [done|]. by intros ->.
  - intros Hcast. rewrite Hcast. split; [done|]. by intros ->.
Qed.

End JobRoutes.

(** ** The [register] listener *)

Section RegisterListener.

Lemma set_property_plain e sid (o : Js.Obj) :
  e ≠ "__proto__" → set_property e sid o = Js.set e sid o.
Proof.
  intros He. unfold set_property. by rewrite (proj2 (String.eqb_neq _ _) He).
Qed.

(** For every [employerId] but [__proto__] the listener is the one of the
    first part. *)
Lemma register_listener_plain sid e st :
  e ≠ "__proto__" →
  register_listener sid (Some {| data_employerId := Some e |}) st
  = on_register sid (Some {| data_employerId := Some e |}) st.
Proof.
  intros He. unfold register_listener, on_register.
  cbn [mbind option_bind data_employerId]. destruct (Js.truthy e); [|done].
  unfold set_employerSockets. by rewrite set_property_plain.
Qed.

(** X21.  A [register] event with an [employerId] other than the empty
    string and [__proto__] binds that employer to the socket, replacing any
    earlier binding, and changes no other entry: the registry grows by one
    entry when the employer was not registered and keeps its size
    otherwise.  A [register] event without an [employerId], or with one
    that is empty or [__proto__], changes nothing. *)
Theorem register_listener_overwrites sid data st :
  let st' := register_listener sid data st in
  (∀ e, data ≫= data_employerId = Some e → e ≠ "" → e ≠ "__proto__" →
     Js.get e (employerSockets st') = Some sid
     ∧ (∀ k, k ≠ e → Js.get k (employerSockets st') = Js.get k (employerSockets st))
     ∧ length (employerSockets st') =
         match Js.get e (employerSockets st) with
         | Some _ => length (employerSockets st)
         | None => S (length (employerSockets st))
         end)
  ∧ (data ≫= data_employerId = None ∨ data ≫= data_employerId = Some ""
     ∨ data ≫= data_employerId = Some "__proto__" → employerSockets st' = employerSockets st)
  ∧ jobs st' = jobs st ∧ employers st' = employers st
  ∧ applications st' = applications st ∧ io st' = io st.
Proof.
  intros st'. subst st'. unfold register_listener. split; [|split].
  - intros e -> He Hproto. rewrite (proj2 (truthy_true e) He).
    cbn [employerSockets set_employerSockets]. rewrite set_property_plain by done.
    split; [apply get_set_eq|]. split; [intros k Hk; by apply get_set_ne|].
    apply length_set.
  - intros [->|[->| ->]]; done.
  - destruct (data ≫= data_employerId) as [e|]; [|done].
    by destruct (Js.truthy e).
Qed.

End RegisterListener.

(** ** The routes at work on the sample data *)

Section ArrivalRuns.
#[local] Existing Instance Reference.platform.
#[local] Existing Instance ReferenceMongoose.mongoose.
#[local] Existing Instance ReferenceMongoose.changes.



Lemma apply_route_checks_witness :
  let s := Sample3.name_in_query Sample.engineer "Bob" in
  apply_route_validation s = []
  ∧ status (apply_route 7 s Sample.server).1 = 500
  ∧ status (apply_route 7 (plain_submission (Sample.apply_nameless Sample.engineer))
              Sample.server).1 = 400.
Proof.
  intros s.
  destruct (apply_route_checks 7 s Sample.server) as (Hiff & _).
  destruct (apply_route_checks 7 (plain_submission (Sample.apply_nameless Sample.engineer))
              Sample.server) as (Hiff' & _).
  split; [vm_compute; reflexivity|]. split; [vm_compute; reflexivity|].
  apply Hiff'. vm_compute. discriminate.
Defined.

Lemma login_route_reveals_email_witness :
  let registered := Sample3.sign_in "employer@example.com" (SNumber 12345) in
  let unknown := Sample3.sign_in "nobody@example.com" (SNumber 12345) in
  login_route_validation registered = []
  ∧ login_route_validation unknown = []
  ∧ login_route registered Sample.server
    = (mkError 500 "Internal Server Error", Sample.server)
  ∧ login_route unknown Sample.server
    = (mkError 401 "Invalid email or password", Sample.server).
Proof.
  intros registered unknown.
  assert (Hv : login_route_validation registered = []) by (vm_compute; reflexivity).
  assert (Hv' : login_route_validation unknown = []) by (vm_compute; reflexivity).
  destruct (login_route_reveals_email registered unknown Sample.server Sample.acme
              Sample.acme_account "employer@example.com" "nobody@example.com")
    as (Hknown & Hunknown & _);
    [exact Hv | exact Hv' | reflexivity | reflexivity | reflexivity
    | intros plain; discriminate | vm_compute; reflexivity | reflexivity | | ].
  - intros id' employer' Hin. unfold Sample.server in Hin. cbn [employers] in Hin.
    apply lookup_singleton_Some in Hin as [<- <-]. discriminate.
  - split; [exact Hv|]. split; [exact Hv'|]. split; [exact Hknown | exact Hunknown].
Defined.

(** The same happens when the password is in the query string only. *)
Lemma login_route_password_in_query :
  let registered := Sample3.password_in_query "employer@example.com" "password123" in
  let unknown := Sample3.password_in_query "nobody@example.com" "password123" in
  login_route_validation registered = []
  ∧ login_route_validation unknown = []
  ∧ status (login_route registered Sample.server).1 = 500
  ∧ status (login_route unknown Sample.server).1 = 401.
Proof. vm_compute. done. Qed.

Lemma login_route_outcomes_witness :
  status (login_route (Sample3.sign_in "employer@example.com" (SString "password123"))
            Sample.server).1 = 200
  ∧ (login_route (Sample3.sign_in "employer@example.com" (SNumber 12345))
       Sample.server).2 = Sample.server
  ∧ status (login_route (Sample3.sign_in "not an email" (SString "password123"))
              Sample.server).1 = 400.
Proof.
  destruct (login_route_outcomes (Sample3.sign_in "employer@example.com" (SNumber 12345))
              Sample.server) as (Hsame & _).
  destruct (login_route_outcomes (Sample3.sign_in "not an email" (SString "password123"))
              Sample.server) as (_ & H400 & _).
  split; [vm_compute; reflexivity|]. split; [exact Hsame|].
  apply H400. vm_compute. discriminate.
Defined.

(** A title of [0] passes validation and leaves the stored title alone. *)
Lemma update_route_frame_witness :
  let b := Sample3.with_title (SNumber 0) in
  let result := update_route 9 Sample.acme_token Sample.engineer b Sample3.database in
  update_route_validation Sample.engineer b = []
  ∧ status result.1 = 200
  ∧ ∃ job' stamps',
      Job_document result.2 Sample.engineer = Some (job', stamps')
      ∧ title job' = "Software Engineer"
      ∧ employerId job' = Sample.acme
      ∧ createdAt stamps' = 1%nat
      ∧ Job_document result.2 Sample.analyst
        = Some (Sample.analyst_job, {| createdAt := 2; updatedAt := 2 |}).
Proof.
  intros b result.
  destruct (update_route_frame 9 Sample.acme_token
              {| user_id := Sample.acme; user_email := "employer@example.com" |}
              Sample.engineer b Sample3.database Sample.engineer Sample.engineer_job
              {| createdAt := 1; updatedAt := 1 |})
    as ((job' & stamps' & Hdoc & Howner & Hcreated & Htitle & _) & Hothers & _);
    [vm_compute; reflexivity ..|].
  split; [vm_compute; reflexivity|]. split; [vm_compute; reflexivity|].
  exists job', stamps'. split; [exact Hdoc|].
  split; [exact (Htitle eq_refl)|]. split; [exact Howner|]. split; [exact Hcreated|].
  subst result. rewrite Hothers by discriminate. vm_compute. reflexivity.
Defined.

(** C9 as stated fails: the owner's update of the title alone rewrites
    [updatedAt], a field of the stored job that is absent from the body. *)
Lemma update_route_rewrites_updatedAt :
  let b := Sample3.with_title (SString "Staff Engineer") in
  let result := update_route 9 Sample.acme_token Sample.engineer b Sample3.database in
  authenticateJWT Sample.acme_token
    = inr {| user_id := Sample.acme; user_email := "employer@example.com" |}
  ∧ Job_document Sample3.database Sample.engineer
    = Some (Sample.engineer_job, {| createdAt := 1; updatedAt := 1 |})
  ∧ employerId Sample.engineer_job = Sample.acme
  ∧ status result.1 = 200
  ∧ (snd <$> Job_document result.2 Sample.engineer)
    = Some {| createdAt := 1; updatedAt := 9 |}.
Proof. vm_compute. repeat split. Defined.

Lemma update_then_get_route_witness :
  let updated := update_route 9 Sample.acme_token Sample3.engineer_upper
                   (Sample3.with_title (SString "Staff Engineer")) Sample3.database in
  status updated.1 = 200
  ∧ ∃ job,
      get_route Sample3.engineer_upper updated.2
      = ({| status := 200; json := JSelection Sample.engineer job 1 |}, updated.2)
      ∧ title job = "Staff Engineer".
Proof.
  intros updated.
  assert (Hs : status updated.1 = 200) by (vm_compute; reflexivity).
  split; [exact Hs|].
  destruct (update_then_get_route 9 Sample.acme_token Sample3.engineer_upper
              (Sample3.with_title (SString "Staff Engineer")) Sample3.database Hs)
    as (_id & job & stamps & Hjson & Hget & _).
  assert (Hdoc : json updated.1
                 = JDocument Sample.engineer
                     {| title := "Staff Engineer";
                        description := description Sample.engineer_job;
                        location := location Sample.engineer_job;
                        salaryRange := salaryRange Sample.engineer_job;
                        employerId := Sample.acme |}
                     {| createdAt := 1; updatedAt := 9 |})
    by (vm_compute; reflexivity).
  fold updated in Hjson, Hget. rewrite Hdoc in Hjson.
  injection Hjson as <- <- <-.
  eexists. split; [exact Hget | reflexivity].
Defined.

(** A delete under the upper-case spelling removes the job; the other job
    and the application made for the deleted one stay. *)
Lemma delete_route_frame_witness :
  let db := {| server := Sample2.with_application;
               jobTimestamps := jobTimestamps Sample3.database |} in
  let db' := (delete_route Sample.acme_token Sample3.engineer_upper db).2 in
  Job_document db' Sample.engineer = None
  ∧ Job_document db' Sample.analyst
    = Some (Sample.analyst_job, {| createdAt := 2; updatedAt := 2 |})
  ∧ (jobId <$> applications (server db') !! "65f0000000000000000000b1")
    = Some Sample.engineer.
Proof.
  intros db db'.
  destruct (delete_route_frame Sample.acme_token Sample3.engineer_upper db)
    as (Hothers & Happs & _).
  split; [vm_compute; reflexivity|].
  split.
  - subst db'. rewrite Hothers; [vm_compute; reflexivity|].
    vm_compute. discriminate.
  - subst db'. rewrite Happs. reflexivity.
Defined.

Lemma mutation_routes_not_found_witness :
  status (delete_route Sample.acme_token Sample.unknown Sample3.database).1 = 404
  ∧ status (update_route 9 Sample.acme_token Sample.unknown
              (Sample3.with_title (SString "Ghost")) Sample3.database).1 = 404.
Proof.
  destruct (mutation_routes_not_found 9 Sample.acme_token
              {| user_id := Sample.acme; user_email := "employer@example.com" |}
              Sample.unknown (Sample3.with_title (SString "Ghost")) Sample3.database)
    as [Hfound _]; try (vm_compute; reflexivity).
  { intros _id Hcast. vm_compute in Hcast. injection Hcast as <-.
    vm_compute. reflexivity. }
  destruct Hfound as [Hdelete Hupdate]; [vm_compute; eauto|].
  rewrite Hdelete, Hupdate by (vm_compute; reflexivity). done.
Defined.

Lemma register_listener_overwrites_witness :
  let st' := register_listener "sock-7" (Sample.claim Sample.acme) Sample.server in
  Js.get Sample.acme (employerSockets Sample.server) = Some "sock-1"
  ∧ Js.get Sample.acme (employerSockets st') = Some "sock-7"
  ∧ length (employerSockets st') = 1%nat
  ∧ employerSockets (register_listener "sock-7" (Sample.claim "__proto__") Sample.server)
    = employerSockets Sample.server.
Proof.
  intros st'.
  destruct (register_listener_overwrites "sock-7" (Sample.claim Sample.acme) Sample.server)
    as (Hbound & _).
  destruct (register_listener_overwrites "sock-7" (Sample.claim "__proto__")
              Sample.server) as (_ & Hignored & _).
  destruct (Hbound Sample.acme eq_refl) as (Hget & _ & Hlen); [discriminate ..|].
  split; [reflexivity|]. split; [exact Hget|]. split; [exact Hlen|].
  apply Hignored. right. by right.
Defined.

End ArrivalRuns.
